(** * HOME-GARAGE: the record store and the image upload of [server.ts]

    A shallow embedding of the Express handlers of [server.ts]: the
    [motorcycles] table behind [better-sqlite3], the JSON bodies the handlers
    read, the [uploads] directory, and the six routes of the API.  The theorems at the
    end state the properties of the persistence and upload layer.

    What lies outside the repository is modelled only as far as the handlers
    use it, and says so where it is defined: JSON values (numbers restricted
    to integers), the parameter binding of [better-sqlite3], the column
    affinities and constraints of SQLite, [path.extname], and the lenient
    base64 decoder of [Buffer.from]. *)

From stdpp Require Import base list strings gmap pretty sorting.
From Stdlib Require Import ZArith Lia Ascii.
From Stdlib Require OrderedTypeEx.

#[local] Set Warnings "-register-all".

Local Open Scope string_scope.
Local Open Scope Z_scope.
Local Open Scope list_scope.

(** ** Exceptions and the [try]/[catch] monad *)

Inductive sqlite_code :=
  | SQLITE_CONSTRAINT_NOTNULL
  | SQLITE_CONSTRAINT_PRIMARYKEY.

Inductive exn :=
  | TypeError (msg : string)
  | RangeError (msg : string)
  | SqliteError (code : sqlite_code) (msg : string)
  | SystemError (msg : string)
  | PayloadTooLargeError.

Inductive result (A : Type) :=
  | Ok (a : A)
  | Throw (e : exn).
Arguments Ok {A} a.
Arguments Throw {A} e.

#[global] Instance result_ret : MRet result := fun _ a => Ok a.
#[global] Instance result_bind : MBind result := fun _ _ k m =>
  match m with
  | Ok a => k a
  | Throw e => Throw e
  end.

Definition is_ok {A} (m : result A) : bool :=
  match m with Ok _ => true | Throw _ => false end.

(** ** JSON values as the handlers see them

    [req.body] is what [express.json()] parsed.  [JUndefined] never occurs in
    a body; it is what reading an absent property gives.  Numbers are the
    integral ones ([year] is the only numeric field of a record). *)

Inductive jsval :=
  | JUndefined
  | JNull
  | JBool (b : bool)
  | JNum (n : Z)
  | JStr (s : string)
  | JArr (xs : list jsval)
  | JObj (props : list (string * jsval)).

Fixpoint lookup_prop (k : string) (props : list (string * jsval)) : jsval :=
  match props with
  | [] => JUndefined
  | (k', v) :: rest => if String.eqb k k' then v else lookup_prop k rest
  end.

(** [v.k] for the property names the handlers read, none of which is built
    in or inherited: an own property of an object, [undefined] on any other
    value, and a [TypeError] on [undefined] and [null]. *)
Definition get_prop (v : jsval) (k : string) : result jsval :=
  match v with
  | JUndefined =>
      Throw (TypeError ("Cannot read properties of undefined (reading '" +:+ k +:+ "')"))
  | JNull =>
      Throw (TypeError ("Cannot read properties of null (reading '" +:+ k +:+ "')"))
  | JObj props => Ok (lookup_prop k props)
  | JBool _ | JNum _ | JStr _ | JArr _ => Ok JUndefined
  end.

(** [!v] is [negb (truthy v)]. *)
Definition truthy (v : jsval) : bool :=
  match v with
  | JUndefined | JNull => false
  | JBool b => b
  | JNum n => negb (n =? 0)
  | JStr s => negb (String.eqb s EmptyString)
  | JArr _ | JObj _ => true
  end.

Definition nullish (v : jsval) : bool :=
  match v with JUndefined | JNull => true | _ => false end.

(** ** The parts of Node the upload handler calls *)

Module Node.

(** *** [String.prototype.replace] with the pattern [/^data:image\/\w+;base64,/]
    and the empty replacement *)

Definition is_word (c : ascii) : bool :=
  let n := Z.of_N (N_of_ascii c) in
  ((48 <=? n) && (n <=? 57)) || ((65 <=? n) && (n <=? 90))
  || ((97 <=? n) && (n <=? 122)) || (n =? 95).

Fixpoint strip_prefix (p s : string) : option string :=
  match p, s with
  | EmptyString, _ => Some s
  | String a p', String b s' => if Ascii.eqb a b then strip_prefix p' s' else None
  | String _ _, EmptyString => None
  end.

Fixpoint skip_word (s : string) : string :=
  match s with
  | String c s' => if is_word c then skip_word s' else s
  | EmptyString => EmptyString
  end.

(** The word run [\w+] is followed by [;], which is no word character, so
    the greedy match is the only one: the longest run, at least one
    character long. *)
Definition replace_data_uri_header (image : string) : string :=
  match strip_prefix "data:image/" image with
  | Some (String c rest) =>
      if is_word c then
        match strip_prefix ";base64," (skip_word rest) with
        | Some payload => payload
        | None => image
        end
      else image
  | _ => image
  end.

(** *** [Buffer.from(s, 'base64')]

    Node's decoder is forgiving: a character outside both base64 alphabets
    is skipped, the first [=] ends the input, and a trailing group of two
    or three characters gives one or two bytes.  It has no failure case. *)

Definition unbase64 (c : ascii) : option Z :=
  let n := Z.of_N (N_of_ascii c) in
  if (65 <=? n) && (n <=? 90) then Some (n - 65)
  else if (97 <=? n) && (n <=? 122) then Some (n - 97 + 26)
  else if (48 <=? n) && (n <=? 57) then Some (n - 48 + 52)
  else if (n =? 43) || (n =? 45) then Some 62
  else if (n =? 47) || (n =? 95) then Some 63
  else None.

Fixpoint sextets (s : string) : list Z :=
  match s with
  | EmptyString => []
  | String c s' =>
      if Ascii.eqb c "=" then []
      else match unbase64 c with
           | Some v => v :: sextets s'
           | None => sextets s'
           end
  end.

Definition byte0 (a b : Z) : Z := Z.lor (Z.shiftl (Z.land a 63) 2) (Z.shiftr (Z.land b 48) 4).
Definition byte1 (b c : Z) : Z := Z.lor (Z.shiftl (Z.land b 15) 4) (Z.shiftr (Z.land c 60) 2).
Definition byte2 (c d : Z) : Z := Z.lor (Z.shiftl (Z.land c 3) 6) (Z.land d 63).

Fixpoint pack (l : list Z) : list Z :=
  match l with
  | a :: b :: c :: d :: rest => byte0 a b :: byte1 b c :: byte2 c d :: pack rest
  | [a; b; c] => [byte0 a b; byte1 b c]
  | [a; b] => [byte0 a b]
  | _ => []
  end.

Definition buffer_from_base64 (s : string) : list Z := pack (sextets s).

(** *** [path.extname] (POSIX) *)

Record ext_state := {
  startDot : Z;
  startPart : Z;
  end_ : Z;
  matchedSlash : bool;
  preDotState : Z
}.

Definition ext_init : ext_state :=
  {| startDot := -1; startPart := 0; end_ := -1; matchedSlash := true; preDotState := 0 |}.

(** The loop [for (i = path.length - 1; i >= 0; --i)], over the characters
    from the last one backwards. *)
Fixpoint extname_scan (rev_chars : list ascii) (i : Z) (st : ext_state) : ext_state :=
  match rev_chars with
  | [] => st
  | c :: rest =>
      if Ascii.eqb c "/" then
        if negb (matchedSlash st) then
          {| startDot := startDot st; startPart := i + 1; end_ := end_ st;
             matchedSlash := matchedSlash st; preDotState := preDotState st |}
        else extname_scan rest (i - 1) st
      else
        let st1 :=
          if end_ st =? -1 then
            {| startDot := startDot st; startPart := startPart st; end_ := i + 1;
               matchedSlash := false; preDotState := preDotState st |}
          else st in
        let st2 :=
          if Ascii.eqb c "." then
            if startDot st1 =? -1 then
              {| startDot := i; startPart := startPart st1; end_ := end_ st1;
                 matchedSlash := matchedSlash st1; preDotState := preDotState st1 |}
            else if negb (preDotState st1 =? 1) then
              {| startDot := startDot st1; startPart := startPart st1; end_ := end_ st1;
                 matchedSlash := matchedSlash st1; preDotState := 1 |}
            else st1
          else if negb (startDot st1 =? -1) then
            {| startDot := startDot st1; startPart := startPart st1; end_ := end_ st1;
               matchedSlash := matchedSlash st1; preDotState := -1 |}
          else st1 in
        extname_scan rest (i - 1) st2
  end.

Definition extname (path : string) : string :=
  let chars := String.list_ascii_of_string path in
  let st := extname_scan (rev chars) (Z.of_nat (length chars) - 1) ext_init in
  if (startDot st =? -1) || (end_ st =? -1) || (preDotState st =? 0)
     || ((preDotState st =? 1) && (startDot st =? end_ st - 1)
         && (startDot st =? startPart st + 1))
  then EmptyString
  else String.substring (Z.to_nat (startDot st)) (Z.to_nat (end_ st - startDot st)) path.

End Node.

(** ** SQLite, as far as the [motorcycles] table uses it *)

(** Storage classes.  [SqlReal n] is the float with the integral value [n]:
    [better-sqlite3] binds every JavaScript number as a double. *)
Inductive sqlval :=
  | SqlNull
  | SqlInteger (n : Z)
  | SqlReal (n : Z)
  | SqlText (s : string).

#[global] Instance sqlval_eq_dec : EqDecision sqlval.
Proof. solve_decision. Defined.

Definition is_null (v : sqlval) : bool :=
  match v with SqlNull => true | _ => false end.

(** [CREATE TABLE IF NOT EXISTS motorcycles (...)]: one record field per
    column, in the order of the schema. *)
Module Bike.
Record t := mk {
  id : sqlval;
  name : sqlval;
  category : sqlval;
  year : sqlval;
  description : sqlval;
  modifications : sqlval;
  image : sqlval;
  engine : sqlval;
  power : sqlval;
  torque : sqlval;
  weight : sqlval;
  topSpeed : sqlval;
  created_at : sqlval
}.
End Bike.

(** The table, in rowid order. *)
Abbreviation table := (list Bike.t).

Module Sqlite.

(** *** Column affinity *)

(** TEXT affinity: a number is stored as its text.  A float with an
    integral value below 10^15 in magnitude prints as its digits followed
    by [.0]; larger floats print with an exponent and are outside this
    model. *)
Definition text_affinity (v : sqlval) : sqlval :=
  match v with
  | SqlInteger n => SqlText (pretty n)
  | SqlReal n => SqlText (pretty n +:+ ".0")
  | SqlNull | SqlText _ => v
  end.

Definition digit_of (c : ascii) : option Z :=
  let n := Z.of_N (N_of_ascii c) in
  if (48 <=? n) && (n <=? 57) then Some (n - 48) else None.

Fixpoint digits_value (acc : Z) (s : string) : option Z :=
  match s with
  | EmptyString => Some acc
  | String c s' =>
      match digit_of c with
      | Some d => digits_value (10 * acc + d) s'
      | None => None
      end
  end.

Definition integer_literal (s : string) : option Z :=
  match s with
  | EmptyString => None
  | String "-" (String c s') => Z.opp <$> digits_value 0 (String c s')
  | String "+" (String c s') => digits_value 0 (String c s')
  | _ => digits_value 0 s
  end.

(** The 64-bit integers, and the floats SQLite turns into one. *)
Definition fits_int64 (n : Z) : bool :=
  (- 2 ^ 63 <=? n) && (n <? 2 ^ 63).

Definition real_fits_int64 (n : Z) : bool :=
  (- 2 ^ 63 <? n) && (n <? 2 ^ 63 - 1).

(** INTEGER affinity: a float that is an integer of 64 bits becomes that
    integer, and so does a text that spells one.  Texts that spell a number
    in another way (padding, a fraction, an exponent) are outside this
    model and stay text here. *)
Definition integer_affinity (v : sqlval) : sqlval :=
  match v with
  | SqlReal n => if real_fits_int64 n then SqlInteger n else v
  | SqlText s =>
      match integer_literal s with
      | Some n => if fits_int64 n then SqlInteger n else v
      | None => v
      end
  | SqlNull | SqlInteger _ => v
  end.

(** *** Comparison *)

(** The order of [ORDER BY]: NULL first, then the numbers by value, then
    the texts byte by byte. *)
Definition sql_compare (a b : sqlval) : comparison :=
  match a, b with
  | SqlNull, SqlNull => Eq
  | SqlNull, _ => Lt
  | _, SqlNull => Gt
  | (SqlInteger m | SqlReal m), (SqlInteger n | SqlReal n) => Z.compare m n
  | (SqlInteger _ | SqlReal _), SqlText _ => Lt
  | SqlText _, (SqlInteger _ | SqlReal _) => Gt
  | SqlText s, SqlText u => String.compare s u
  end.

(** [col = ?] in a WHERE clause: never true on NULL. *)
Definition sql_eq (a b : sqlval) : bool :=
  match a, b with
  | SqlNull, _ | _, SqlNull => false
  | _, _ => match sql_compare a b with Eq => true | _ => false end
  end.

(** [WHERE id = ?]: the column has TEXT affinity and the parameter none, so
    the parameter is compared as text. *)
Definition where_id (p : sqlval) (r : Bike.t) : bool :=
  sql_eq (Bike.id r) (text_affinity p).

(** *** Parameter binding of [better-sqlite3] ([Statement#run(...args)]) *)

Definition bind_value (v : jsval) : result sqlval :=
  match v with
  | JUndefined | JNull => Ok SqlNull
  | JNum n => Ok (SqlReal n)
  | JStr s => Ok (SqlText s)
  | JBool _ | JArr _ | JObj _ =>
      Throw (TypeError "SQLite3 can only bind numbers, strings, bigints, buffers, and null")
  end.

Fixpoint bind_array (xs : list jsval) : result (list sqlval) :=
  match xs with
  | [] => Ok []
  | x :: rest => p ← bind_value x; ps ← bind_array rest; Ok (p :: ps)
  end.

(** An array argument is spread into anonymous parameters; a plain object
    carries named parameters, of which these statements have none, and only
    one such object is accepted. *)
Fixpoint bind_args (bound_object : bool) (args : list jsval) : result (list sqlval) :=
  match args with
  | [] => Ok []
  | JArr xs :: rest =>
      ps ← bind_array xs; qs ← bind_args bound_object rest; Ok (ps ++ qs)
  | JObj _ :: rest =>
      if bound_object
      then Throw (TypeError "You cannot specify named parameters in two different objects")
      else bind_args true rest
  | v :: rest =>
      p ← bind_value v; qs ← bind_args bound_object rest; Ok (p :: qs)
  end.

Definition bind_parameters (count : nat) (args : list jsval) : result (list sqlval) :=
  ps ← bind_args false args;
  if (length ps <? count)%nat
  then Throw (RangeError "Too few parameter values were provided")
  else if (count <? length ps)%nat
  then Throw (RangeError "Too many parameter values were provided")
  else Ok ps.

(** *** The four statements *)

(** [name], [category] and [year] are declared NOT NULL; the first of them
    that is NULL, in column order, is the one the error names. *)
Definition not_null_violation (name category year : sqlval) : option string :=
  if is_null name then Some "name"
  else if is_null category then Some "category"
  else if is_null year then Some "year"
  else None.

Definition not_null_failed (column : string) : exn :=
  SqliteError SQLITE_CONSTRAINT_NOTNULL
              ("NOT NULL constraint failed: motorcycles." +:+ column).

Definition primary_key_failed : exn :=
  SqliteError SQLITE_CONSTRAINT_PRIMARYKEY "UNIQUE constraint failed: motorcycles.id".

(** [id TEXT PRIMARY KEY]: no two rows with the same key; NULL keys, which
    SQLite admits in such a column, never collide. *)
Definition key_taken (key : sqlval) (tbl : table) : bool :=
  existsb (fun r => sql_eq (Bike.id r) key) tbl.

(** [INSERT INTO motorcycles (id, ..., topSpeed) VALUES (?, ..., ?)];
    [created_at] takes its default, the [CURRENT_TIMESTAMP] text [now]. *)
Definition insert (now : string) (params : list sqlval) (tbl : table) : result table :=
  match params with
  | [id; name; category; year; description; modifications; image;
     engine; power; torque; weight; topSpeed] =>
      let r :=
        {| Bike.id := text_affinity id;
           Bike.name := text_affinity name;
           Bike.category := text_affinity category;
           Bike.year := integer_affinity year;
           Bike.description := text_affinity description;
           Bike.modifications := text_affinity modifications;
           Bike.image := text_affinity image;
           Bike.engine := text_affinity engine;
           Bike.power := text_affinity power;
           Bike.torque := text_affinity torque;
           Bike.weight := text_affinity weight;
           Bike.topSpeed := text_affinity topSpeed;
           Bike.created_at := SqlText now |} in
      match not_null_violation (Bike.name r) (Bike.category r) (Bike.year r) with
      | Some column => Throw (not_null_failed column)
      | None =>
          if key_taken (Bike.id r) tbl
          then Throw primary_key_failed
          else Ok (tbl ++ [r])
      end
  | _ => Throw (RangeError "Too few parameter values were provided")
  end.

(** The SET clause of the UPDATE: eleven columns, [id] and [created_at]
    kept. *)
Definition set_columns (name category year description modifications image
                        engine power torque weight topSpeed : sqlval)
                       (r : Bike.t) : Bike.t :=
  {| Bike.id := Bike.id r;
     Bike.name := text_affinity name;
     Bike.category := text_affinity category;
     Bike.year := integer_affinity year;
     Bike.description := text_affinity description;
     Bike.modifications := text_affinity modifications;
     Bike.image := text_affinity image;
     Bike.engine := text_affinity engine;
     Bike.power := text_affinity power;
     Bike.torque := text_affinity torque;
     Bike.weight := text_affinity weight;
     Bike.topSpeed := text_affinity topSpeed;
     Bike.created_at := Bike.created_at r |}.

Definition changes (hit : Bike.t -> bool) (tbl : table) : Z :=
  Z.of_nat (length (filter (fun r => hit r = true) tbl)).

(** [UPDATE motorcycles SET name = ?, ..., topSpeed = ? WHERE id = ?].
    The NOT NULL constraints are checked on the rows the statement writes,
    so a statement that matches no row never fails on them.  The result is
    the table and [info.changes]. *)
Definition update (params : list sqlval) (tbl : table) : result (table * Z) :=
  match params with
  | [name; category; year; description; modifications; image;
     engine; power; torque; weight; topSpeed; id] =>
      match not_null_violation (text_affinity name) (text_affinity category)
                               (integer_affinity year) with
      | Some column =>
          if existsb (where_id id) tbl
          then Throw (not_null_failed column)
          else Ok (tbl, 0)
      | None =>
          Ok (map (fun r =>
                     if where_id id r
                     then set_columns name category year description modifications
                                      image engine power torque weight topSpeed r
                     else r) tbl,
              changes (where_id id) tbl)
      end
  | _ => Throw (RangeError "Too few parameter values were provided")
  end.

(** [DELETE FROM motorcycles WHERE id = ?] *)
Definition delete (params : list sqlval) (tbl : table) : result (table * Z) :=
  match params with
  | [id] => Ok (filter (fun r => where_id id r = false) tbl, changes (where_id id) tbl)
  | _ => Throw (RangeError "Too few parameter values were provided")
  end.

(** [ORDER BY created_at DESC]: no row before one with a later
    [created_at].  The order among equal timestamps is SQLite's choice; the
    sort used here is one such choice. *)
Definition newest_first (r1 r2 : Bike.t) : Prop :=
  sql_compare (Bike.created_at r1) (Bike.created_at r2) ≠ Lt.

#[global] Instance comparison_eq_dec : EqDecision comparison.
Proof. solve_decision. Defined.

#[global] Instance newest_first_dec : RelDecision newest_first.
Proof. intros r1 r2. unfold newest_first. apply _. Defined.

(** [SELECT * FROM motorcycles ORDER BY created_at DESC] *)
Definition select_all (tbl : table) : table :=
  merge_sort newest_first tbl.

(** A column value read back into JavaScript. *)
Definition to_js (v : sqlval) : jsval :=
  match v with
  | SqlNull => JNull
  | SqlInteger n | SqlReal n => JNum n
  | SqlText s => JStr s
  end.

End Sqlite.

(** ** The server of [server.ts] *)

(** What a request finds outside the process: the clock, the random number
    generator and the disk. *)
Record env := {
  Date_now : Z;                    (* Date.now() *)
  Math_random_1e9 : Z;             (* Math.round(Math.random() * 1E9) *)
  CURRENT_TIMESTAMP : string;      (* the default of created_at *)
  write_error : option string      (* the error of fs.writeFileSync, if it fails *)
}.

(** The files of [uploadsDir], by name. *)
Abbreviation directory := (gmap string (list Z)).

Inductive body :=
  | Empty
  | Json (v : jsval).

Record response := {
  status : Z;
  payload : body
}.

Definition json_error (code : Z) (msg : string) : response :=
  {| status := code; payload := Json (JObj [("error", JStr msg)]) |}.

(** [limits: { fileSize: 5 * 1024 * 1024 } // 5MB limit], the limit of the
    [multer] instance [upload].  No route of [server.ts] mounts [upload]. *)
Definition fileSize : Z := 5 * 1024 * 1024.

(** [express.json({ limit: '10mb' })] *)
Definition json_limit : Z := 10 * 1024 * 1024.

(** The size check of [handleFileUpload] in the client, before it reads and
    posts a file: [if (file.size > 5 * 1024 * 1024) { alert(...); return; }]. *)
Definition client_accepts_file (size : Z) : bool :=
  negb (5 * 1024 * 1024 <? size).

(** *** The final error handler: [app.use((err, req, res, next) => ...)] *)

Definition exn_status (e : exn) : option Z :=
  match e with
  | PayloadTooLargeError => Some 413
  | _ => None
  end.

Definition exn_message (e : exn) : string :=
  match e with
  | TypeError msg | RangeError msg | SqliteError _ msg | SystemError msg => msg
  | PayloadTooLargeError => "request entity too large"
  end.

Definition error_handler (e : exn) : response :=
  json_error (default 500 (exn_status e))
             (if String.eqb (exn_message e) EmptyString then "Internal Server Error"
              else exn_message e).

(** *** [POST /api/upload] *)

(** [const { image, fileName } = req.body] *)
Definition destructure (v : jsval) (k : string) : result jsval :=
  match v with
  | JUndefined =>
      Throw (TypeError ("Cannot destructure property '" +:+ k
                        +:+ "' of 'req.body' as it is undefined."))
  | JNull =>
      Throw (TypeError ("Cannot destructure property '" +:+ k
                        +:+ "' of 'req.body' as it is null."))
  | _ => get_prop v k
  end.

(** [image.replace(/^data:image\/\w+;base64,/, ...)]: only a string has the
    method. *)
Definition replace_header (image : jsval) : result string :=
  match image with
  | JStr s => Ok (Node.replace_data_uri_header s)
  | _ => Throw (TypeError "image.replace is not a function")
  end.

(** [path.extname(fileName)]: a [TypeError] on anything but a string. *)
Definition path_extname (fileName : jsval) : result string :=
  match fileName with
  | JStr s => Ok (Node.extname s)
  | _ => Throw (TypeError "ERR_INVALID_ARG_TYPE")
  end.

(** [fs.writeFileSync(path.join(uploadsDir, newFileName), buffer)] *)
Definition writeFileSync (e : env) (dir : directory) (newFileName : string)
                         (buffer : list Z) : result directory :=
  match write_error e with
  | Some msg => Throw (SystemError msg)
  | None => Ok (<[newFileName := buffer]> dir)
  end.

Definition newFileName (e : env) (fileExt : string) : string :=
  (pretty (Date_now e) +:+ "-" +:+ pretty (Math_random_1e9 e)) +:+ fileExt.

(** The [try] block of the handler; the result is [imageUrl] and the
    directory after the write. *)
Definition upload_try (e : env) (dir : directory) (image fileName : jsval)
  : result (string * directory) :=
  base64Data ← replace_header image;
  let buffer := Node.buffer_from_base64 base64Data in
  ext ← path_extname fileName;
  let fileExt := if String.eqb ext EmptyString then ".jpg" else ext in
  dir' ← writeFileSync e dir (newFileName e fileExt) buffer;
  Ok ("/uploads/" +:+ newFileName e fileExt, dir').

Definition post_upload (e : env) (dir : directory) (req_body : jsval)
  : response * directory :=
  match (image ← destructure req_body "image";
         fileName ← destructure req_body "fileName";
         Ok (image, fileName)) with
  | Throw err => (error_handler err, dir)
  | Ok (image, fileName) =>
      if negb (truthy image) || negb (truthy fileName)
      then (json_error 400 "Missing image data or file name", dir)
      else
        match upload_try e dir image fileName with
        | Ok (imageUrl, dir') =>
            ({| status := 200; payload := Json (JObj [("imageUrl", JStr imageUrl)]) |}, dir')
        | Throw _ => (json_error 500 "Failed to save uploaded image", dir)
        end
  end.

(** *** [GET /api/motorcycles] *)

(** The flat row mapped back to the nested shape ([formattedBikes]). *)
Definition format_bike (bike : Bike.t) : jsval :=
  JObj [("id", Sqlite.to_js (Bike.id bike));
        ("name", Sqlite.to_js (Bike.name bike));
        ("category", Sqlite.to_js (Bike.category bike));
        ("year", Sqlite.to_js (Bike.year bike));
        ("description", Sqlite.to_js (Bike.description bike));
        ("modifications", Sqlite.to_js (Bike.modifications bike));
        ("image", Sqlite.to_js (Bike.image bike));
        ("specs", JObj [("engine", Sqlite.to_js (Bike.engine bike));
                        ("power", Sqlite.to_js (Bike.power bike));
                        ("torque", Sqlite.to_js (Bike.torque bike));
                        ("weight", Sqlite.to_js (Bike.weight bike));
                        ("topSpeed", Sqlite.to_js (Bike.topSpeed bike))])].

Definition formattedBikes (tbl : table) : list jsval :=
  map format_bike (Sqlite.select_all tbl).

Definition get_motorcycles (tbl : table) : response :=
  {| status := 200; payload := Json (JArr (formattedBikes tbl)) |}.

(** *** [POST /api/motorcycles] *)

(** [bike.specs.k] *)
Definition get_spec (bike : jsval) (k : string) : result jsval :=
  specs ← get_prop bike "specs"; get_prop specs k.

(** The eleven values both statements take from the body, in the order the
    handlers evaluate them. *)
Definition mutable_args (bike : jsval) : result (list jsval) :=
  name ← get_prop bike "name";
  category ← get_prop bike "category";
  year ← get_prop bike "year";
  description ← get_prop bike "description";
  modifications ← get_prop bike "modifications";
  image ← get_prop bike "image";
  engine ← get_spec bike "engine";
  power ← get_spec bike "power";
  torque ← get_spec bike "torque";
  weight ← get_spec bike "weight";
  topSpeed ← get_spec bike "topSpeed";
  Ok [name; category; year; description; modifications; image;
      engine; power; torque; weight; topSpeed].

(** The arguments of [stmt.run(bike.id, ..., bike.specs.topSpeed)], evaluated
    and bound: the body flattened into the twelve parameters of the INSERT. *)
Definition insert_params (bike : jsval) : result (list sqlval) :=
  id ← get_prop bike "id";
  args ← mutable_args bike;
  Sqlite.bind_parameters 12 (id :: args).

(** The [try] block of the handler. *)
Definition create (e : env) (bike : jsval) (tbl : table) : result table :=
  params ← insert_params bike;
  Sqlite.insert (CURRENT_TIMESTAMP e) params tbl.

Definition post_motorcycles (e : env) (tbl : table) (bike : jsval) : response * table :=
  match create e bike tbl with
  | Ok tbl' => ({| status := 201; payload := Json bike |}, tbl')
  | Throw _ => (json_error 500 "Failed to add motorcycle", tbl)
  end.

(** *** [PUT /api/motorcycles/:id] *)

Definition update (id : string) (bike : jsval) (tbl : table) : result (table * Z) :=
  args ← mutable_args bike;
  params ← Sqlite.bind_parameters 12 (args ++ [JStr id]);
  Sqlite.update params tbl.

Definition put_motorcycle (tbl : table) (id : string) (bike : jsval) : response * table :=
  match update id bike tbl with
  | Ok (tbl', _) => ({| status := 200; payload := Json bike |}, tbl')
  | Throw _ => (json_error 500 "Failed to update motorcycle", tbl)
  end.

(** *** The two delete routes *)

Definition delete (id : string) (tbl : table) : result (table * Z) :=
  params ← Sqlite.bind_parameters 1 [JStr id];
  Sqlite.delete params tbl.

(** [POST /api/motorcycles/:id/delete].  Its [SELECT id FROM motorcycles] only
    feeds [console.log]. *)
Definition post_motorcycle_delete (tbl : table) (id : string) : response * table :=
  match delete id tbl with
  | Ok (tbl', changes) =>
      if 0 <? changes
      then ({| status := 200; payload := Json (JObj [("success", JBool true)]) |}, tbl')
      else (json_error 404 ("Motorcycle with ID " +:+ id +:+ " not found"), tbl')
  | Throw _ => (json_error 500 "Failed to delete motorcycle", tbl)
  end.

(** [DELETE /api/motorcycles/:id] *)
Definition delete_motorcycle (tbl : table) (id : string) : response * table :=
  match delete id tbl with
  | Ok (tbl', changes) =>
      if 0 <? changes
      then ({| status := 204; payload := Empty |}, tbl')
      else (json_error 404 "Motorcycle not found", tbl')
  | Throw _ => (json_error 500 "Failed to delete", tbl)
  end.

(** *** The application: body parser, routes, error handler *)

Record state := {
  motorcycles : table;
  uploads : directory
}.

Inductive route :=
  | GET_motorcycles
  | POST_motorcycles
  | PUT_motorcycle (id : string)
  | POST_motorcycle_delete (id : string)
  | DELETE_motorcycle (id : string)
  | POST_upload.

(** A request: the route it matches, the length in bytes of its JSON body,
    and the body once parsed. *)
Record request := {
  target : route;
  content_length : Z;
  req_body : jsval
}.

(** [express.json({ limit: '10mb' })]: a body longer than the limit raises
    the 413 error of the body parser. *)
Definition express_json (req : request) : result jsval :=
  if json_limit <? content_length req
  then Throw PayloadTooLargeError
  else Ok (req_body req).

Definition serve (e : env) (st : state) (req : request) : response * state :=
  match express_json req with
  | Throw err => (error_handler err, st)
  | Ok parsed =>
      match target req with
      | GET_motorcycles => (get_motorcycles (motorcycles st), st)
      | POST_motorcycles =>
          let '(res, tbl) := post_motorcycles e (motorcycles st) parsed in
          (res, {| motorcycles := tbl; uploads := uploads st |})
      | PUT_motorcycle id =>
          let '(res, tbl) := put_motorcycle (motorcycles st) id parsed in
          (res, {| motorcycles := tbl; uploads := uploads st |})
      | POST_motorcycle_delete id =>
          let '(res, tbl) := post_motorcycle_delete (motorcycles st) id in
          (res, {| motorcycles := tbl; uploads := uploads st |})
      | DELETE_motorcycle id =>
          let '(res, tbl) := delete_motorcycle (motorcycles st) id in
          (res, {| motorcycles := tbl; uploads := uploads st |})
      | POST_upload =>
          let '(res, dir) := post_upload e (uploads st) parsed in
          (res, {| motorcycles := motorcycles st; uploads := dir |})
      end
  end.

(** ** The vocabulary of the properties *)

(** The row of the record with the identifier [x]. *)
Definition has_id (x : string) (r : Bike.t) : Prop :=
  Bike.id r = SqlText x.

(** The store contains a record with the identifier [x]. *)
Definition present (x : string) (tbl : table) : Prop :=
  ∃ r, r ∈ tbl ∧ has_id x r.

Definition row_key (r : Bike.t) : option string :=
  match Bike.id r with
  | SqlText s => Some s
  | _ => None
  end.

(** The invariant the PRIMARY KEY constraint maintains. *)
Definition primary_key (tbl : table) : Prop :=
  NoDup (omap row_key tbl).

(** A value of an optional text field of a body: a string, or absent. *)
Definition text_or_absent (v : jsval) : bool :=
  match v with
  | JUndefined | JNull | JStr _ => true
  | _ => false
  end.

Definition specs_fields : list string :=
  ["engine"; "power"; "torque"; "weight"; "topSpeed"].

(** A body of the client's shape, with the fields [bike] and, under [specs],
    the fields [specs]: [name] and [category] are the strings [n] and [c],
    [year] is the number [y], each of [description], [modifications] and
    [image] is a string or absent, [specs] is an object, and each of its five
    fields is a string or absent. *)
Definition record_body (bike specs : list (string * jsval)) (n c : string) (y : Z) : Prop :=
  lookup_prop "name" bike = JStr n
  ∧ lookup_prop "category" bike = JStr c
  ∧ lookup_prop "year" bike = JNum y
  ∧ text_or_absent (lookup_prop "description" bike) = true
  ∧ text_or_absent (lookup_prop "modifications" bike) = true
  ∧ text_or_absent (lookup_prop "image" bike) = true
  ∧ lookup_prop "specs" bike = JObj specs
  ∧ ∀ k, k ∈ specs_fields → text_or_absent (lookup_prop k specs) = true.

(** What the store keeps for such a field: the text, or NULL. *)
Definition stored (v : jsval) : sqlval :=
  match v with
  | JStr s => SqlText s
  | _ => SqlNull
  end.

(** What a list call shows for such a field: the string, or [null]. *)
Definition shown (v : jsval) : jsval :=
  match v with
  | JStr s => JStr s
  | _ => JNull
  end.

(** The record a list call shows under [x] after an update with [bike] has
    replaced every mutable column. *)
Definition replaced_by (x : string) (bike specs : list (string * jsval)) : jsval :=
  JObj [("id", JStr x);
        ("name", lookup_prop "name" bike);
        ("category", lookup_prop "category" bike);
        ("year", lookup_prop "year" bike);
        ("description", shown (lookup_prop "description" bike));
        ("modifications", shown (lookup_prop "modifications" bike));
        ("image", shown (lookup_prop "image" bike));
        ("specs", JObj [("engine", shown (lookup_prop "engine" specs));
                        ("power", shown (lookup_prop "power" specs));
                        ("torque", shown (lookup_prop "torque" specs));
                        ("weight", shown (lookup_prop "weight" specs));
                        ("topSpeed", shown (lookup_prop "topSpeed" specs))])].

(** The row [create] writes for a body with the required fields [x], [n],
    [c], [y] and whatever optional fields [bike] and [specs] carry. *)
Definition inserted_row (now : string) (bike specs : list (string * jsval))
                        (x n c : string) (y : Z) : Bike.t :=
  {| Bike.id := SqlText x;
     Bike.name := SqlText n;
     Bike.category := SqlText c;
     Bike.year := Sqlite.integer_affinity (SqlReal y);
     Bike.description := stored (lookup_prop "description" bike);
     Bike.modifications := stored (lookup_prop "modifications" bike);
     Bike.image := stored (lookup_prop "image" bike);
     Bike.engine := stored (lookup_prop "engine" specs);
     Bike.power := stored (lookup_prop "power" specs);
     Bike.torque := stored (lookup_prop "torque" specs);
     Bike.weight := stored (lookup_prop "weight" specs);
     Bike.topSpeed := stored (lookup_prop "topSpeed" specs);
     Bike.created_at := SqlText now |}.

(** The column of a field of [specs]. *)
Definition spec_column (k : string) (r : Bike.t) : sqlval :=
  if String.eqb k "engine" then Bike.engine r
  else if String.eqb k "power" then Bike.power r
  else if String.eqb k "torque" then Bike.torque r
  else if String.eqb k "weight" then Bike.weight r
  else if String.eqb k "topSpeed" then Bike.topSpeed r
  else SqlNull.

(** *** The record type of the client ([constants.ts]) *)

Inductive Category := Yamaha | Suzuki | Honda | Piaggio.

Definition category_name (c : Category) : string :=
  match c with
  | Yamaha => "Yamaha"
  | Suzuki => "Suzuki"
  | Honda => "Honda"
  | Piaggio => "Piaggio"
  end.

Record Specs := {
  engine : string;
  power : string;
  torque : string;
  weight : string;
  topSpeed : string
}.

Record Motorcycle := {
  id : string;
  name : string;
  category : Category;
  image : string;
  specs : Specs;
  modifications : string;
  description : string;
  year : Z
}.

(** The JSON the client sends for a record, in the field order of the
    interface. *)
Definition to_json (m : Motorcycle) : jsval :=
  JObj [("id", JStr (id m));
        ("name", JStr (name m));
        ("category", JStr (category_name (category m)));
        ("image", JStr (image m));
        ("specs", JObj [("engine", JStr (engine (specs m)));
                        ("power", JStr (power (specs m)));
                        ("torque", JStr (torque (specs m)));
                        ("weight", JStr (weight (specs m)));
                        ("topSpeed", JStr (topSpeed (specs m)))]);
        ("modifications", JStr (modifications m));
        ("description", JStr (description m));
        ("year", JNum (year m))].

Definition record_fields : list string :=
  ["id"; "name"; "category"; "year"; "description"; "modifications"; "image"].

(** Two nested records agree field for field: on the seven scalar fields and
    on the five fields under [specs]. *)
Definition same_fields (a b : jsval) : Prop :=
  (∀ k, k ∈ record_fields → get_prop a k = get_prop b k)
  ∧ (∀ k, k ∈ specs_fields → get_spec a k = get_spec b k).

(** The twelve columns [create] writes for a record. *)
Definition flatten (now : string) (m : Motorcycle) : Bike.t :=
  {| Bike.id := SqlText (id m);
     Bike.name := SqlText (name m);
     Bike.category := SqlText (category_name (category m));
     Bike.year := Sqlite.integer_affinity (SqlReal (year m));
     Bike.description := SqlText (description m);
     Bike.modifications := SqlText (modifications m);
     Bike.image := SqlText (image m);
     Bike.engine := SqlText (engine (specs m));
     Bike.power := SqlText (power (specs m));
     Bike.torque := SqlText (torque (specs m));
     Bike.weight := SqlText (weight (specs m));
     Bike.topSpeed := SqlText (topSpeed (specs m));
     Bike.created_at := SqlText now |}.

(** *** Sample data *)

Definition sample_env : env :=
  {| Date_now := 1700000000000;
     Math_random_1e9 := 424242;
     CURRENT_TIMESTAMP := "2024-05-01 09:30:00";
     write_error := None |}.

Definition rx_king : Motorcycle :=
  {| id := "k3j9x0q1z";
     name := "RX King Cobra";
     category := Yamaha;
     image := "/uploads/1700000000000-424242.png";
     specs := {| engine := "135cc 2-stroke"; power := "18.5 HP"; torque := "15.2 Nm";
                 weight := "98 kg"; topSpeed := "140 km/h" |};
     modifications := "Expansion chamber, Racing CDI";
     description := "Restored street build";
     year := 1998 |}.

Definition sample_table : table :=
  [flatten "2024-04-30 18:00:00" rx_king].

(** A body with the four required fields and no [specs]. *)
Definition bike_without_specs : jsval :=
  JObj [("id", JStr "v5p4x2m8c");
        ("name", JStr "Vespa Sprint");
        ("category", JStr "Piaggio");
        ("year", JNum 1974)].

(** A body with the four required fields and an empty [specs]. *)
Definition bike_with_empty_specs : jsval :=
  JObj [("id", JStr "v5p4x2m8c");
        ("name", JStr "Vespa Sprint");
        ("category", JStr "Piaggio");
        ("year", JNum 1974);
        ("specs", JObj [])].

(** An update body that omits [name]. *)
Definition update_without_name : jsval :=
  JObj [("category", JStr "Honda");
        ("year", JNum 2005);
        ("description", JStr "Repainted");
        ("specs", JObj [])].

(** An update body with the required fields, one optional field and one
    field of [specs]. *)
Definition partial_update : jsval :=
  JObj [("name", JStr "RX King Cobra II");
        ("category", JStr "Yamaha");
        ("year", JNum 2001);
        ("modifications", JStr "Ported cylinder");
        ("specs", JObj [("power", JStr "21 HP")])].

(** The body of an inline upload. *)
Definition upload_body (image fileName : string) : jsval :=
  JObj [("image", JStr image); ("fileName", JStr fileName)].

Fixpoint repeat_string (k : nat) (s : string) : string :=
  match k with
  | O => EmptyString
  | S k' => s +:+ repeat_string k' s
  end.

(** The base64 text of [fileSize + 1] zero bytes: 5242881 = 3 * 1747627, and
    every [AAAA] decodes to three of them. *)
Definition over_ceiling_image : string :=
  repeat_string (Z.to_nat 1747627) "AAAA".

(** The upload of that image; its JSON text is 6990542 bytes long. *)
Definition over_ceiling_request : request :=
  {| target := POST_upload;
     content_length := 6990542;
     req_body := upload_body over_ceiling_image "bike.png" |}.

Definition empty_state : state :=
  {| motorcycles := []; uploads := ∅ |}.

(** *** The vocabulary of the further properties *)

Definition chars (s : string) : list ascii := String.list_ascii_of_string s.

(** The extension the upload handler gives a file:
    [path.extname(fileName) || '.jpg']. *)
Definition fileExt_of (fileName : string) : string :=
  if String.eqb (Node.extname fileName) EmptyString then ".jpg"
  else Node.extname fileName.

Definition is_digit (c : ascii) : bool :=
  let n := Z.of_N (N_of_ascii c) in (48 <=? n) && (n <=? 57).

(** A value that [Statement#run] binds as one parameter or refuses: anything
    but an array, which it spreads, and an object, which binds none. *)
Definition one_param (v : jsval) : bool :=
  match v with
  | JArr _ | JObj _ => false
  | _ => true
  end.

(** The server run on a sequence of requests, each in its environment. *)
Fixpoint run (st : state) (reqs : list (env * request)) : state :=
  match reqs with
  | [] => st
  | (e, req) :: rest => run (serve e st req).2 rest
  end.

(** The header of a data URI, [data:image/<subtype>;base64,]. *)
Definition data_uri_header (subtype : string) : string :=
  "data:image/" +:+ subtype +:+ ";base64,".

(** The state of the scan of [path.extname] after the characters from the
    end of [cs] down to index [lo]: either only trailing slashes were seen,
    or the end of the last component is marked, no slash lies between [lo]
    and it, and [startDot], if set, is the index of a dot in that range. *)
Definition scan_ok (cs : list ascii) (lo : Z) (st : Node.ext_state) : Prop :=
  (Node.matchedSlash st = true ∧ Node.end_ st = -1 ∧ Node.startDot st = -1)
  ∨ (Node.matchedSlash st = false ∧ 0 ≤ lo ∧ lo < Node.end_ st ≤ Z.of_nat (length cs)
     ∧ (∀ j, lo ≤ j < Node.end_ st → cs !! Z.to_nat j ≠ Some "/"%char)
     ∧ (Node.startDot st = -1
        ∨ (lo ≤ Node.startDot st < Node.end_ st
           ∧ cs !! Z.to_nat (Node.startDot st) = Some "."%char))).

(** A character of a file name that is neither the path separator nor a
    dot. *)
Definition is_plain (c : ascii) : bool :=
  negb (Ascii.eqb c "/") && negb (Ascii.eqb c ".").

(** The three columns the schema declares NOT NULL hold a value. *)
Definition required_columns (r : Bike.t) : Prop :=
  is_null (Bike.name r) = false
  ∧ is_null (Bike.category r) = false
  ∧ is_null (Bike.year r) = false.


(** A file of [uploadsDir] that sits in the directory itself and holds
    bytes. *)
Definition flat_byte_file (name : string) (buffer : list Z) : Prop :=
  ("/"%char ∉ chars name) ∧ Forall (λ b, 0 ≤ b < 256) buffer.

(** *** The client: the handlers that call the record routes

    The state of the client is the list [bikes] of the records it shows;
    a handler is given here with the table of the server, and returns the
    list and the table after it.  A [fetch] is the call of the handler of
    its route; the toasts and the form state are left out. *)







(** *** Further sample data *)

(** A request at the same millisecond and with the same random draw as
    [sample_env], on a full disk. *)
Definition later_env : env :=
  {| Date_now := 1700000000000;
     Math_random_1e9 := 424242;
     CURRENT_TIMESTAMP := "2024-05-02 10:00:00";
     write_error := Some "ENOSPC: no space left on device" |}.

(** The upload of three zero bytes; its JSON text is 38 bytes long. *)
Definition small_upload_request : request :=
  {| target := POST_upload;
     content_length := 38;
     req_body := upload_body "AAAA" "bike.png" |}.

(** The fields of a body that omits [name]. *)
Definition body_without_name : list (string * jsval) :=
  [("id", JStr "h0nd4c70x");
   ("category", JStr "Honda");
   ("year", JNum 2005);
   ("description", JStr "Repainted");
   ("specs", JObj [])].

(** The fields of a body that omits [id]. *)
Definition body_without_id : list (string * jsval) :=
  [("name", JStr "Vespa Sprint");
   ("category", JStr "Piaggio");
   ("year", JNum 1974);
   ("specs", JObj [])].

(** *** Facts about the model of SQLite *)

Lemma string_compare_refl (s : string) : String.compare s s = Eq.
Proof.
  pose proof (String.compare_antisym s s) as H.
  destruct (String.compare s s); simpl in H; congruence.
Qed.

Lemma where_id_has_id (x : string) (r : Bike.t) :
  Sqlite.where_id (SqlText x) r = true ↔ has_id x r.
Proof.
  unfold Sqlite.where_id, Sqlite.sql_eq, has_id. simpl.
  destruct (Bike.id r) as [|n|n|s]; simpl; try (split; [discriminate|congruence]).
  destruct (String.compare s x) eqn:E.
  - apply String.compare_eq_iff in E. subst. tauto.
  - split; [discriminate|]. intros [= ->]. rewrite string_compare_refl in E. discriminate.
  - split; [discriminate|]. intros [= ->]. rewrite string_compare_refl in E. discriminate.
Qed.

Lemma where_id_false (x : string) (r : Bike.t) :
  Sqlite.where_id (SqlText x) r = false ↔ ¬ has_id x r.
Proof.
  rewrite <- where_id_has_id. destruct (Sqlite.where_id (SqlText x) r); split; congruence.
Qed.

Lemma key_taken_present (x : string) (tbl : table) :
  Sqlite.key_taken (SqlText x) tbl = true ↔ present x tbl.
Proof.
  unfold Sqlite.key_taken, present. rewrite existsb_exists. split.
  - intros (r & Hin & Heq). exists r. split; [by apply list_elem_of_In|].
    by apply where_id_has_id.
  - intros (r & Hin & Hid). exists r. split; [by apply list_elem_of_In|].
    by apply (where_id_has_id x r).
Qed.

Lemma existsb_where_id_present (x : string) (tbl : table) :
  existsb (Sqlite.where_id (SqlText x)) tbl = true ↔ present x tbl.
Proof.
  unfold present. rewrite existsb_exists. split.
  - intros (r & Hin & Heq). exists r. split; [by apply list_elem_of_In|].
    by apply where_id_has_id.
  - intros (r & Hin & Hid). exists r. split; [by apply list_elem_of_In|].
    by apply where_id_has_id.
Qed.

Lemma changes_positive (x : string) (tbl : table) :
  (0 <? Sqlite.changes (Sqlite.where_id (SqlText x)) tbl) = true ↔ present x tbl.
Proof.
  unfold Sqlite.changes, present. rewrite Z.ltb_lt. induction tbl as [|r tbl IH].
  - simpl. split; [lia|]. intros (r & Hin & _). by apply elem_of_nil in Hin.
  - rewrite filter_cons. destruct (decide (Sqlite.where_id (SqlText x) r = true)) as [Hr|Hr].
    + split; [|simpl; lia]. intros _. exists r. split; [left|]. by apply where_id_has_id.
    + rewrite IH. split.
      * intros (r' & Hin & Hid). exists r'. split; [by right|done].
      * intros (r' & Hin & Hid). apply elem_of_cons in Hin as [->|Hin].
        -- by apply where_id_has_id in Hid.
        -- by exists r'.
Qed.

Lemma filter_absent (x : string) (tbl : table) :
  ¬ present x tbl →
  filter (λ r, Sqlite.where_id (SqlText x) r = false) tbl = tbl.
Proof.
  intros Habs. induction tbl as [|r tbl IH]; [done|].
  rewrite filter_cons. destruct (decide (Sqlite.where_id (SqlText x) r = false)) as [Hr|Hr].
  - f_equal. apply IH. intros (r' & Hin & Hid). apply Habs. exists r'. split; [by right|done].
  - exfalso. apply Habs. exists r. split; [left|]. apply where_id_has_id.
    by destruct (Sqlite.where_id (SqlText x) r).
Qed.

Lemma delete_runs (x : string) (tbl : table) :
  delete x tbl =
  Ok (filter (λ r, Sqlite.where_id (SqlText x) r = false) tbl,
      Sqlite.changes (Sqlite.where_id (SqlText x)) tbl).
Proof. reflexivity. Qed.

Lemma absent_not_key (x : string) (l : list Bike.t) :
  x ∉ omap row_key l → ¬ present x l.
Proof.
  intros Hnot (r & Hin & Hid). apply Hnot. apply list_elem_of_omap.
  exists r. split; [done|]. unfold row_key. by rewrite Hid.
Qed.

Lemma delete_only_row (x : string) (l1 l2 : list Bike.t) (r : Bike.t) :
  primary_key (l1 ++ r :: l2) → has_id x r →
  filter (λ r, Sqlite.where_id (SqlText x) r = false) (l1 ++ r :: l2) = l1 ++ l2.
Proof.
  unfold primary_key. intros Hpk Hid.
  rewrite omap_app in Hpk. simpl in Hpk.
  assert (row_key r = Some x) as Hk by (unfold row_key; by rewrite Hid).
  rewrite Hk in Hpk. apply NoDup_app in Hpk as (_ & Hdisj & Hnd).
  apply NoDup_cons in Hnd as [Hx2 _].
  rewrite filter_app, filter_cons.
  destruct (decide (Sqlite.where_id (SqlText x) r = false)) as [Hr|_].
  { apply where_id_false in Hr. contradiction. }
  rewrite !filter_absent; [done| |].
  - by apply absent_not_key.
  - apply absent_not_key. intros Hx1. apply (Hdisj x Hx1). left.
Qed.

(** *** Facts about the two statements that write *)

Lemma bind_args_snoc (b : bool) (args : list jsval) (x : string) :
  Sqlite.bind_args b (args ++ [JStr x]) =
  (ps ← Sqlite.bind_args b args; Ok (ps ++ [SqlText x])).
Proof.
  revert b. induction args as [|a args IH]; intros b; [done|].
  destruct a as [| |c|n|s|xs|props]; simpl; try done;
    try (rewrite IH; by destruct (Sqlite.bind_args b args)).
  - unfold mbind, result_bind.
    destruct (Sqlite.bind_array xs) as [ps|]; [|done].
    rewrite IH. unfold mbind, result_bind.
    destruct (Sqlite.bind_args b args) as [qs|]; [|done].
    by rewrite app_assoc.
  - destruct b; [done|]. apply IH.
Qed.

Lemma eleven_values {A} (ps : list A) :
  length ps = 11%nat →
  ∃ a b c d e f g h i j k, ps = [a; b; c; d; e; f; g; h; i; j; k].
Proof.
  intros Hlen.
  do 11 (destruct ps as [|? ps]; [discriminate Hlen|]).
  destruct ps; [|discriminate Hlen]. by repeat eexists.
Qed.

(** The UPDATE of the handler either throws or runs with eleven values from
    the body and the route's [id] as its last parameter. *)
Lemma update_runs (x : string) (bike : jsval) (tbl : table) :
  (∃ err, update x bike tbl = Throw err)
  ∨ (∃ name category year description modifications image
       engine power torque weight topSpeed,
       update x bike tbl =
       Sqlite.update [name; category; year; description; modifications; image;
                      engine; power; torque; weight; topSpeed; SqlText x] tbl).
Proof.
  unfold update. destruct (mutable_args bike) as [args|err]; [|left; by eexists].
  cbn [mbind result_bind]. unfold Sqlite.bind_parameters. rewrite bind_args_snoc.
  destruct (Sqlite.bind_args false args) as [ps|err]; [|left; by eexists].
  cbn [mbind result_bind].
  destruct (length (ps ++ [SqlText x]) <? 12)%nat eqn:Hlt; [left; by eexists|].
  destruct (12 <? length (ps ++ [SqlText x]))%nat eqn:Hgt; [left; by eexists|].
  apply Nat.ltb_ge in Hlt, Hgt. rewrite length_app in Hlt, Hgt. simpl in Hlt, Hgt.
  destruct (eleven_values ps) as (n & c & y & d & m & i & e1 & p & t & w & s & ->); [lia|].
  right. by exists n, c, y, d, m, i, e1, p, t, w, s.
Qed.

(** Whatever the request, the table after a PUT is the old one with some rows
    rewritten by a function that keeps [id] and [created_at] and leaves the
    rows of other records alone. *)
Lemma put_motorcycle_rewrites (tbl : table) (x : string) (bike : jsval) :
  ∃ f : Bike.t → Bike.t,
    (put_motorcycle tbl x bike).2 = map f tbl
    ∧ ∀ r, Bike.id (f r) = Bike.id r
           ∧ Bike.created_at (f r) = Bike.created_at r
           ∧ (¬ has_id x r → f r = r).
Proof.
  unfold put_motorcycle.
  destruct (update_runs x bike tbl) as [[err ->]|(n & c & y & d & m & i & e1 & p & t & w & s & ->)].
  { exists (λ r, r). by rewrite map_id. }
  unfold Sqlite.update.
  destruct (Sqlite.not_null_violation _ _ _) as [col|].
  - exists (λ r, r). rewrite map_id.
    by destruct (existsb (Sqlite.where_id (SqlText x)) tbl).
  - eexists. split; [reflexivity|]. intros r. simpl.
    destruct (Sqlite.where_id (SqlText x) r) eqn:Hr; [|done].
    repeat split; try done. intros Hno. by apply where_id_has_id in Hr.
Qed.

(** ** The properties *)

(** [C9] The two delete routes, [DELETE /api/motorcycles/:id] and
    [POST /api/motorcycles/:id/delete], behave alike on every table and every
    identifier: they leave the same table behind, each answers 404 exactly
    when no row has the identifier, and each answers its success status (204,
    respectively 200) exactly when a row has it. *)
Theorem delete_routes_agree (tbl : table) (x : string) :
  (delete_motorcycle tbl x).2 = (post_motorcycle_delete tbl x).2
  ∧ (status (delete_motorcycle tbl x).1 = 404 ↔ ¬ present x tbl)
  ∧ (status (post_motorcycle_delete tbl x).1 = 404 ↔ ¬ present x tbl)
  ∧ (status (delete_motorcycle tbl x).1 = 204 ↔ present x tbl)
  ∧ (status (post_motorcycle_delete tbl x).1 = 200 ↔ present x tbl).
Proof.
  unfold delete_motorcycle, post_motorcycle_delete. rewrite delete_runs.
  pose proof (changes_positive x tbl) as Hc.
  destruct (0 <? Sqlite.changes (Sqlite.where_id (SqlText x)) tbl); simpl.
  - assert (present x tbl) as Hp by by apply Hc.
    repeat split; try done; intros H; try discriminate; contradiction.
  - assert (¬ present x tbl) as Hp by (intros Hp; apply Hc in Hp; discriminate).
    repeat split; try done; intros H; try discriminate; contradiction.
Qed.

(** [C8] [DELETE /api/motorcycles/:id]: for an identifier no row has, the
    answer is 404 and the table is the one before, row for row; for an
    identifier a row [r] has, in a table that satisfies the primary key, the
    answer is 204 and the table is the one before without [r], every other
    row kept in place. *)
Theorem delete_absent_or_present (tbl : table) (x : string) :
  (¬ present x tbl →
   delete_motorcycle tbl x = (json_error 404 "Motorcycle not found", tbl))
  ∧ (primary_key tbl → ∀ r, r ∈ tbl → has_id x r →
     ∃ l1 l2, tbl = l1 ++ r :: l2
              ∧ delete_motorcycle tbl x = ({| status := 204; payload := Empty |}, l1 ++ l2)).
Proof.
  unfold delete_motorcycle. rewrite delete_runs. split.
  - intros Habs. pose proof (changes_positive x tbl) as Hc.
    destruct (0 <? Sqlite.changes (Sqlite.where_id (SqlText x)) tbl).
    + exfalso. by apply Habs, Hc.
    + by rewrite filter_absent.
  - intros Hpk r Hin Hid.
    destruct (list_elem_of_split _ _ Hin) as (l1 & l2 & ->).
    exists l1, l2. split; [done|].
    assert ((0 <? Sqlite.changes (Sqlite.where_id (SqlText x)) (l1 ++ r :: l2)) = true) as ->.
    { apply changes_positive. by exists r. }
    by rewrite delete_only_row.
Qed.

Lemma delete_absent_or_present_witness :
  delete_motorcycle sample_table "no-such-id"
  = (json_error 404 "Motorcycle not found", sample_table)
  ∧ ∃ l1 l2, sample_table = l1 ++ flatten "2024-04-30 18:00:00" rx_king :: l2
             ∧ delete_motorcycle sample_table "k3j9x0q1z"
               = ({| status := 204; payload := Empty |}, l1 ++ l2).
Proof.
  split.
  - apply (proj1 (delete_absent_or_present sample_table "no-such-id")).
    intros (r & Hin & Hid). apply list_elem_of_singleton in Hin. subst r. discriminate Hid.
  - apply (proj2 (delete_absent_or_present sample_table "k3j9x0q1z")).
    + apply NoDup_singleton.
    + apply list_elem_of_here.
    + reflexivity.
Defined.

(** [C7] [PUT /api/motorcycles/:id] never alters [id] or [created_at]: after
    any update call, on any table, the two columns read row for row as before;
    the statement writes the eleven other columns only, and only in the rows
    of the record it targets. *)
Theorem update_keeps_id_and_created_at (tbl : table) (x : string) (bike : jsval) :
  map Bike.id (put_motorcycle tbl x bike).2 = map Bike.id tbl
  ∧ map Bike.created_at (put_motorcycle tbl x bike).2 = map Bike.created_at tbl
  ∧ Forall2 (λ r r', ¬ has_id x r → r' = r) tbl (put_motorcycle tbl x bike).2.
Proof.
  destruct (put_motorcycle_rewrites tbl x bike) as (f & -> & Hf).
  rewrite <- !list_fmap_compose. repeat split.
  - apply list_fmap_ext. intros _ r _. apply Hf.
  - apply list_fmap_ext. intros _ r _. apply Hf.
  - apply Forall2_fmap_r, Forall_Forall2_diag, Forall_forall. intros r _ Hno.
    by apply Hf.
Qed.

(** *** Facts about binding and the INSERT *)

Lemma bind_args_values (b : bool) (vs : list jsval) (ps : list sqlval) :
  Forall2 (λ v p, Sqlite.bind_value v = Ok p) vs ps →
  Sqlite.bind_args b vs = Ok ps.
Proof.
  induction 1 as [|v p vs ps Hv _ IH]; [done|].
  destruct v; simpl in *; try discriminate; rewrite IH; by inversion Hv.
Qed.

Lemma bind_value_text (v : jsval) :
  text_or_absent v = true → Sqlite.bind_value v = Ok (stored v).
Proof. by destruct v. Qed.

Lemma text_affinity_stored (v : jsval) :
  Sqlite.text_affinity (stored v) = stored v.
Proof. by destruct v. Qed.

Lemma shown_stored (v : jsval) :
  text_or_absent v = true →
  Sqlite.to_js (Sqlite.text_affinity (stored v)) = shown v.
Proof. by destruct v. Qed.

Lemma to_js_integer_affinity (n : Z) :
  Sqlite.to_js (Sqlite.integer_affinity (SqlReal n)) = JNum n.
Proof. simpl. by destruct (Sqlite.real_fits_int64 n). Qed.

Lemma integer_affinity_not_null (n : Z) :
  is_null (Sqlite.integer_affinity (SqlReal n)) = false.
Proof. simpl. by destruct (Sqlite.real_fits_int64 n). Qed.

Lemma record_body_specs (bike specs : list (string * jsval)) (n c : string) (y : Z) :
  record_body bike specs n c y → lookup_prop "specs" bike = JObj specs.
Proof. by intros (_ & _ & _ & _ & _ & _ & Hs & _). Qed.

Lemma mutable_args_object (props specs : list (string * jsval)) :
  lookup_prop "specs" props = JObj specs →
  mutable_args (JObj props) =
  Ok [lookup_prop "name" props; lookup_prop "category" props; lookup_prop "year" props;
      lookup_prop "description" props; lookup_prop "modifications" props;
      lookup_prop "image" props;
      lookup_prop "engine" specs; lookup_prop "power" specs; lookup_prop "torque" specs;
      lookup_prop "weight" specs; lookup_prop "topSpeed" specs].
Proof.
  intros Hs. unfold mutable_args, get_spec, get_prop.
  cbn [mbind result_bind]. by rewrite Hs.
Qed.

(** A body whose [id] is the string [x] binds [x] as the first parameter. *)
Lemma insert_params_id (bike : jsval) (x : string) (ps : list sqlval) :
  get_prop bike "id" = Ok (JStr x) → insert_params bike = Ok ps →
  ∃ qs, ps = SqlText x :: qs.
Proof.
  unfold insert_params. intros -> Hps. cbn [mbind result_bind] in Hps.
  destruct (mutable_args bike) as [args|]; [|discriminate].
  cbn [mbind result_bind] in Hps. unfold Sqlite.bind_parameters in Hps.
  cbn [Sqlite.bind_args Sqlite.bind_value mbind result_bind] in Hps.
  destruct (Sqlite.bind_args false args) as [qs|]; [|discriminate].
  cbn [mbind result_bind] in Hps. exists qs.
  destruct (_ <? _)%nat; [discriminate|].
  destruct (_ <? _)%nat; [discriminate|]. by inversion Hps.
Qed.

(** An INSERT whose key is taken fails, and fails on the key when the other
    checks pass, as they do if the same row enters the empty table. *)
Lemma insert_key_taken (now : string) (x : string) (qs : list sqlval) (tbl : table) :
  present x tbl →
  (∃ err, Sqlite.insert now (SqlText x :: qs) tbl = Throw err)
  ∧ (is_ok (Sqlite.insert now (SqlText x :: qs) []) = true →
     Sqlite.insert now (SqlText x :: qs) tbl = Throw Sqlite.primary_key_failed).
Proof.
  intros Hp. apply key_taken_present in Hp.
  do 11 (destruct qs as [|? qs]; [split; [by eexists|discriminate]|]).
  destruct qs; [|split; [by eexists|discriminate]].
  unfold Sqlite.insert. cbn [Bike.id Bike.name Bike.category Bike.year].
  destruct (Sqlite.not_null_violation _ _ _); [split; [by eexists|discriminate]|].
  cbn [Sqlite.text_affinity]. rewrite Hp. split; [by eexists|done].
Qed.

(** A successful create appends one row, and that row carries the [id] of
    the body. *)
Lemma create_appends (e : env) (bike : jsval) (x : string) (tbl tbl1 : table) :
  get_prop bike "id" = Ok (JStr x) → create e bike tbl = Ok tbl1 →
  ∃ r, tbl1 = tbl ++ [r] ∧ has_id x r.
Proof.
  unfold create. intros Hid Hc.
  destruct (insert_params bike) as [ps|] eqn:Hps; [|discriminate].
  destruct (insert_params_id _ _ _ Hid Hps) as [qs ->].
  cbn [mbind result_bind] in Hc.
  do 11 (destruct qs as [|? qs]; [discriminate|]).
  destruct qs; [|discriminate].
  unfold Sqlite.insert in Hc.
  destruct (Sqlite.not_null_violation _ _ _); [discriminate|].
  destruct (Sqlite.key_taken _ _); [discriminate|].
  inversion Hc. by eexists.
Qed.

Lemma elem_of_formattedBikes (tbl : table) (out : jsval) :
  out ∈ formattedBikes tbl ↔ ∃ r, r ∈ tbl ∧ out = format_bike r.
Proof.
  unfold formattedBikes, Sqlite.select_all. rewrite list_elem_of_fmap.
  split.
  - intros (r & Hout & Hin). exists r. split; [|done].
    by rewrite merge_sort_Permutation in Hin.
  - intros (r & Hin & Hout). exists r. split; [done|].
    by rewrite merge_sort_Permutation.
Qed.

(** [C2] Creating a record whose [id] is already in the store fails and
    leaves the store as it was: the response is the handler's failure (never
    201), the table after the request is the table before it, so the row
    with that [id] keeps every field; and when the body is one the empty
    store would accept, what rejects it is the primary-key constraint. *)
Theorem create_existing_id_rejected (e : env) (tbl : table) (bike : jsval) (x : string) :
  present x tbl → get_prop bike "id" = Ok (JStr x) →
  (∃ err, create e bike tbl = Throw err)
  ∧ post_motorcycles e tbl bike = (json_error 500 "Failed to add motorcycle", tbl)
  ∧ (is_ok (create e bike []) = true →
     create e bike tbl = Throw Sqlite.primary_key_failed).
Proof.
  intros Hp Hid.
  assert ((∃ err, create e bike tbl = Throw err)
          ∧ (is_ok (create e bike []) = true →
             create e bike tbl = Throw Sqlite.primary_key_failed)) as [[err Herr] Hpk].
  { unfold create. destruct (insert_params bike) as [ps|err] eqn:Hps.
    - destruct (insert_params_id _ _ _ Hid Hps) as [qs ->].
      cbn [mbind result_bind]. by apply insert_key_taken.
    - split; [by eexists|discriminate]. }
  split; [by eexists|]. split; [|done].
  unfold post_motorcycles. by rewrite Herr.
Qed.

Lemma create_existing_id_rejected_witness :
  (∃ err, create sample_env (to_json rx_king) sample_table = Throw err)
  ∧ post_motorcycles sample_env sample_table (to_json rx_king)
    = (json_error 500 "Failed to add motorcycle", sample_table)
  ∧ (is_ok (create sample_env (to_json rx_king) []) = true →
     create sample_env (to_json rx_king) sample_table = Throw Sqlite.primary_key_failed).
Proof.
  apply (create_existing_id_rejected sample_env sample_table (to_json rx_king) "k3j9x0q1z").
  - exists (flatten "2024-04-30 18:00:00" rx_king). split; [apply list_elem_of_here|reflexivity].
  - reflexivity.
Defined.

(** *** The round trip of a record *)

Lemma key_not_taken (x : string) (tbl : table) :
  ¬ present x tbl → Sqlite.key_taken (SqlText x) tbl = false.
Proof.
  intros Habs. destruct (Sqlite.key_taken (SqlText x) tbl) eqn:Hk; [|done].
  by apply key_taken_present in Hk.
Qed.

(** [create] on the JSON of a record writes the twelve columns of [flatten]. *)
Lemma create_record (e : env) (tbl : table) (m : Motorcycle) :
  ¬ present (id m) tbl →
  create e (to_json m) tbl = Ok (tbl ++ [flatten (CURRENT_TIMESTAMP e) m]).
Proof.
  intros Hfresh. unfold create, insert_params, to_json, flatten.
  erewrite mutable_args_object by reflexivity.
  cbn. rewrite (key_not_taken _ _ Hfresh).
  by destruct (Sqlite.real_fits_int64 (year m)).
Qed.

(** The nested shape read back from the flat row of a record agrees with the
    record on every field. *)
Lemma unflatten_flatten (now : string) (m : Motorcycle) :
  same_fields (format_bike (flatten now m)) (to_json m).
Proof.
  split; intros k Hk.
  - unfold record_fields in Hk.
    repeat (apply elem_of_cons in Hk as [->|Hk]);
      try (by apply elem_of_nil in Hk); try reflexivity.
    unfold format_bike, flatten, to_json, get_prop. cbn [lookup_prop String.eqb Ascii.eqb Bool.eqb Bike.year].
    by rewrite to_js_integer_affinity.
  - unfold specs_fields in Hk.
    repeat (apply elem_of_cons in Hk as [->|Hk]);
      try (by apply elem_of_nil in Hk); reflexivity.
Qed.

(** [C1] A record round-trips.  For every record [m] of the client's type
    whose [id] is not yet stored, [POST /api/motorcycles] with its JSON
    answers 201 and appends the flat row of twelve columns, and the list that
    [GET /api/motorcycles] then returns contains the nested record rebuilt
    from that row, which agrees with [m] on [id], [name], [category], [year],
    [description], [modifications], [image] and the five fields under
    [specs]; [created_at] is not part of what is returned. *)
Theorem record_round_trips (e : env) (tbl : table) (m : Motorcycle) :
  ¬ present (id m) tbl →
  let nested_out := format_bike (flatten (CURRENT_TIMESTAMP e) m) in
  post_motorcycles e tbl (to_json m)
  = ({| status := 201; payload := Json (to_json m) |},
     tbl ++ [flatten (CURRENT_TIMESTAMP e) m])
  ∧ nested_out ∈ formattedBikes (post_motorcycles e tbl (to_json m)).2
  ∧ same_fields nested_out (to_json m)
  ∧ get_prop nested_out "created_at" = Ok JUndefined.
Proof.
  intros Hfresh nested_out.
  assert (post_motorcycles e tbl (to_json m)
          = ({| status := 201; payload := Json (to_json m) |},
             tbl ++ [flatten (CURRENT_TIMESTAMP e) m])) as Hpost.
  { unfold post_motorcycles. by rewrite create_record. }
  rewrite Hpost. split; [reflexivity|]. split; [|split].
  - apply elem_of_formattedBikes. eexists. split; [|reflexivity].
    apply elem_of_app. right. apply list_elem_of_here.
  - apply unflatten_flatten.
  - reflexivity.
Qed.

Lemma record_round_trips_witness :
  let nested_out := format_bike (flatten "2024-05-01 09:30:00" rx_king) in
  post_motorcycles sample_env [] (to_json rx_king)
  = ({| status := 201; payload := Json (to_json rx_king) |},
     [flatten "2024-05-01 09:30:00" rx_king])
  ∧ nested_out ∈ formattedBikes (post_motorcycles sample_env [] (to_json rx_king)).2
  ∧ same_fields nested_out (to_json rx_king)
  ∧ get_prop nested_out "created_at" = Ok JUndefined.
Proof.
  apply (record_round_trips sample_env [] rx_king).
  intros (r & Hin & _). by apply elem_of_nil in Hin.
Defined.

(** *** Bodies with typed fields *)

(** The eleven values of a body with the required fields and well-typed
    optional ones bind one parameter each. *)
Lemma bind_typed_body (bike specs : list (string * jsval)) (n c : string) (y : Z) :
  record_body bike specs n c y →
  Forall2 (λ v p, Sqlite.bind_value v = Ok p)
    [lookup_prop "name" bike; lookup_prop "category" bike; lookup_prop "year" bike;
     lookup_prop "description" bike; lookup_prop "modifications" bike;
     lookup_prop "image" bike;
     lookup_prop "engine" specs; lookup_prop "power" specs; lookup_prop "torque" specs;
     lookup_prop "weight" specs; lookup_prop "topSpeed" specs]
    [SqlText n; SqlText c; SqlReal y;
     stored (lookup_prop "description" bike); stored (lookup_prop "modifications" bike);
     stored (lookup_prop "image" bike);
     stored (lookup_prop "engine" specs); stored (lookup_prop "power" specs);
     stored (lookup_prop "torque" specs); stored (lookup_prop "weight" specs);
     stored (lookup_prop "topSpeed" specs)].
Proof.
  intros (-> & -> & -> & Hd & Hm & Hi & _ & Hs).
  repeat constructor; try (by apply bind_value_text).
  all: apply bind_value_text, Hs; unfold specs_fields; rewrite !elem_of_cons; tauto.
Qed.

(** [C5, counterexample] A create input with [id], [name], [category] and
    [year] but no [specs] at all is not accepted: reading [bike.specs.engine]
    throws, the handler answers 500, and nothing is stored. *)
Lemma create_without_specs_fails :
  get_prop bike_without_specs "specs" = Ok JUndefined
  ∧ post_motorcycles sample_env [] bike_without_specs
    = (json_error 500 "Failed to add motorcycle", []).
Proof. split; reflexivity. Qed.

(** [C5, amended] A create input whose [id], [name], [category] and [year]
    are present, whose [id] is not yet stored, and whose [specs] is present
    as an object is accepted whichever of the five fields of [specs] (and of
    [description], [modifications], [image]) are absent: the answer is 201
    with the body echoed, one row is appended, and every absent field of
    [specs] is NULL in it. *)
Theorem create_with_absent_spec_fields
    (e : env) (tbl : table) (bike specs : list (string * jsval))
    (x n c : string) (y : Z) :
  lookup_prop "id" bike = JStr x →
  record_body bike specs n c y →
  ¬ present x tbl →
  post_motorcycles e tbl (JObj bike)
  = ({| status := 201; payload := Json (JObj bike) |},
     tbl ++ [inserted_row (CURRENT_TIMESTAMP e) bike specs x n c y])
  ∧ ∀ k, k ∈ specs_fields → lookup_prop k specs = JUndefined →
         spec_column k (inserted_row (CURRENT_TIMESTAMP e) bike specs x n c y) = SqlNull.
Proof.
  intros Hx Hbody Hfresh. split.
  - unfold post_motorcycles, create, insert_params.
    rewrite (mutable_args_object _ _ (record_body_specs _ _ _ _ _ Hbody)).
    unfold get_prop. rewrite Hx.
    cbn [mbind result_bind]. unfold Sqlite.bind_parameters.
    erewrite bind_args_values;
      [|constructor; [reflexivity|by apply (bind_typed_body bike specs n c y)]].
    unfold inserted_row. cbn.
    rewrite (key_not_taken _ _ Hfresh), !text_affinity_stored.
    by destruct (Sqlite.real_fits_int64 y).
  - intros k Hk Habs. unfold specs_fields in Hk.
    repeat (apply elem_of_cons in Hk as [->|Hk]); try (by apply elem_of_nil in Hk);
      cbn; by rewrite Habs.
Qed.

Lemma create_with_absent_spec_fields_witness :
  post_motorcycles sample_env [] bike_with_empty_specs
  = ({| status := 201; payload := Json bike_with_empty_specs |},
     [] ++ [inserted_row "2024-05-01 09:30:00"
              [("id", JStr "v5p4x2m8c"); ("name", JStr "Vespa Sprint");
               ("category", JStr "Piaggio"); ("year", JNum 1974); ("specs", JObj [])]
              [] "v5p4x2m8c" "Vespa Sprint" "Piaggio" 1974])
  ∧ ∀ k, k ∈ specs_fields → lookup_prop k [] = JUndefined →
         spec_column k (inserted_row "2024-05-01 09:30:00"
              [("id", JStr "v5p4x2m8c"); ("name", JStr "Vespa Sprint");
               ("category", JStr "Piaggio"); ("year", JNum 1974); ("specs", JObj [])]
              [] "v5p4x2m8c" "Vespa Sprint" "Piaggio" 1974) = SqlNull.
Proof.
  apply (create_with_absent_spec_fields sample_env []
           [("id", JStr "v5p4x2m8c"); ("name", JStr "Vespa Sprint");
            ("category", JStr "Piaggio"); ("year", JNum 1974); ("specs", JObj [])]
           [] "v5p4x2m8c" "Vespa Sprint" "Piaggio" 1974).
  - reflexivity.
  - repeat split; reflexivity.
  - intros (r & Hin & _). by apply elem_of_nil in Hin.
Defined.

(** *** Update after create *)

Lemma to_js_text (v : sqlval) (x : string) :
  Sqlite.to_js v = JStr x → v = SqlText x.
Proof. destruct v; simpl; congruence. Qed.

Lemma update_with_args (x : string) (bike : jsval) (tbl : table) (args : list jsval) :
  mutable_args bike = Ok args →
  update x bike tbl =
  (params ← Sqlite.bind_parameters 12 (args ++ [JStr x]); Sqlite.update params tbl).
Proof. intros H. unfold update. by rewrite H. Qed.

Lemma update_with_params (args : list jsval) (params : list sqlval) (tbl : table) :
  Sqlite.bind_parameters 12 args = Ok params →
  (params ← Sqlite.bind_parameters 12 args; Sqlite.update params tbl)
  = Sqlite.update params tbl.
Proof. by intros ->. Qed.

Lemma bind_update_parameters (x : string)
    (bike specs : list (string * jsval)) (n c : string) (y : Z) :
  record_body bike specs n c y →
  Sqlite.bind_parameters 12
    ([lookup_prop "name" bike; lookup_prop "category" bike; lookup_prop "year" bike;
      lookup_prop "description" bike; lookup_prop "modifications" bike;
      lookup_prop "image" bike;
      lookup_prop "engine" specs; lookup_prop "power" specs; lookup_prop "torque" specs;
      lookup_prop "weight" specs; lookup_prop "topSpeed" specs] ++ [JStr x])
  = Ok [SqlText n; SqlText c; SqlReal y;
        stored (lookup_prop "description" bike); stored (lookup_prop "modifications" bike);
        stored (lookup_prop "image" bike);
        stored (lookup_prop "engine" specs); stored (lookup_prop "power" specs);
        stored (lookup_prop "torque" specs); stored (lookup_prop "weight" specs);
        stored (lookup_prop "topSpeed" specs); SqlText x].
Proof.
  intros Hbody.
  unfold Sqlite.bind_parameters. rewrite bind_args_snoc.
  by rewrite (bind_args_values _ _ _ (bind_typed_body bike specs n c y Hbody)).
Qed.

(** The UPDATE statement run with the required values not NULL. *)
Lemma update_statement_runs (tbl : table) (x n c : string) (y : Z)
    (d m i e p t w s : sqlval) :
  Sqlite.update [SqlText n; SqlText c; SqlReal y; d; m; i; e; p; t; w; s; SqlText x] tbl
  = Ok (map (λ r, if Sqlite.where_id (SqlText x) r
                  then Sqlite.set_columns (SqlText n) (SqlText c) (SqlReal y)
                                          d m i e p t w s r
                  else r) tbl,
        Sqlite.changes (Sqlite.where_id (SqlText x)) tbl).
Proof.
  unfold Sqlite.update, Sqlite.not_null_violation.
  cbn [Sqlite.text_affinity is_null]. by rewrite integer_affinity_not_null.
Qed.

(** The UPDATE of a body with typed fields, on any table. *)
Lemma update_typed_body (tbl : table) (x : string)
    (bike specs : list (string * jsval)) (n c : string) (y : Z) :
  record_body bike specs n c y →
  update x (JObj bike) tbl =
  Ok (map (λ r, if Sqlite.where_id (SqlText x) r
                then Sqlite.set_columns
                       (SqlText n) (SqlText c) (SqlReal y)
                       (stored (lookup_prop "description" bike))
                       (stored (lookup_prop "modifications" bike))
                       (stored (lookup_prop "image" bike))
                       (stored (lookup_prop "engine" specs))
                       (stored (lookup_prop "power" specs))
                       (stored (lookup_prop "torque" specs))
                       (stored (lookup_prop "weight" specs))
                       (stored (lookup_prop "topSpeed" specs)) r
                else r) tbl,
      Sqlite.changes (Sqlite.where_id (SqlText x)) tbl).
Proof.
  intros Hbody.
  rewrite (update_with_args _ _ _ _
             (mutable_args_object _ _ (record_body_specs _ _ _ _ _ Hbody))).
  rewrite (update_with_params _ _ _ (bind_update_parameters x bike specs n c y Hbody)).
  apply update_statement_runs.
Qed.

(** The nested record of a row the UPDATE has rewritten. *)
Lemma format_replaced (r : Bike.t) (x : string)
    (bike specs : list (string * jsval)) (n c : string) (y : Z) :
  has_id x r →
  record_body bike specs n c y →
  format_bike (Sqlite.set_columns
                 (SqlText n) (SqlText c) (SqlReal y)
                 (stored (lookup_prop "description" bike))
                 (stored (lookup_prop "modifications" bike))
                 (stored (lookup_prop "image" bike))
                 (stored (lookup_prop "engine" specs))
                 (stored (lookup_prop "power" specs))
                 (stored (lookup_prop "torque" specs))
                 (stored (lookup_prop "weight" specs))
                 (stored (lookup_prop "topSpeed" specs)) r)
  = replaced_by x bike specs.
Proof.
  intros Hid (Hn & Hc & Hy & Hd & Hm & Hi & _ & Hsp).
  unfold format_bike, replaced_by, Sqlite.set_columns.
  cbn [Bike.id Bike.name Bike.category Bike.year Bike.description Bike.modifications
       Bike.image Bike.engine Bike.power Bike.torque Bike.weight Bike.topSpeed].
  rewrite Hid, Hn, Hc, Hy, to_js_integer_affinity.
  rewrite !shown_stored; [done|..]; try done.
  all: apply Hsp; unfold specs_fields; rewrite !elem_of_cons; tauto.
Qed.

(** [C6, counterexample] An update that omits [name] replaces nothing: the
    NOT NULL constraint rejects the statement, the handler answers 500, and
    the list still shows every value of the created record, among them the
    [description] the update meant to replace and the [specs] it omitted. *)
Lemma update_without_name_keeps_record :
  let tbl1 := (post_motorcycles sample_env [] (to_json rx_king)).2 in
  let '(res, tbl2) := put_motorcycle tbl1 "k3j9x0q1z" update_without_name in
  res = json_error 500 "Failed to update motorcycle"
  ∧ formattedBikes tbl2 = [format_bike (flatten "2024-05-01 09:30:00" rx_king)]
  ∧ get_prop (format_bike (flatten "2024-05-01 09:30:00" rx_king)) "description"
    = Ok (JStr "Restored street build")
  ∧ get_spec (format_bike (flatten "2024-05-01 09:30:00" rx_king)) "engine"
    = Ok (JStr "135cc 2-stroke").
Proof. vm_compute. repeat split; reflexivity. Qed.

(** [C6, amended] Update is a full replacement whenever the UPDATE runs.
    After a record was created under [x], an update under [x] whose body
    carries [name], [category], [year] and a [specs] object answers 200, and
    the list then shows under [x] exactly the values of that body: each
    optional field the body omits ([description], [modifications], [image],
    the five fields of [specs]) reads [null], and no record under [x] shows
    anything else. *)
Theorem update_replaces_every_field
    (e : env) (tbl tbl1 : table) (created : jsval) (res : response) (x : string)
    (bike specs : list (string * jsval)) (n c : string) (y : Z) :
  post_motorcycles e tbl created = (res, tbl1) →
  status res = 201 →
  get_prop created "id" = Ok (JStr x) →
  record_body bike specs n c y →
  ∃ tbl2,
    put_motorcycle tbl1 x (JObj bike)
    = ({| status := 200; payload := Json (JObj bike) |}, tbl2)
    ∧ replaced_by x bike specs ∈ formattedBikes tbl2
    ∧ ∀ out, out ∈ formattedBikes tbl2 → get_prop out "id" = Ok (JStr x) →
             out = replaced_by x bike specs.
Proof.
  intros Hpost Hres Hid Hbody.
  assert (∃ r0, r0 ∈ tbl1 ∧ has_id x r0) as (r0 & Hin0 & Hid0).
  { unfold post_motorcycles in Hpost.
    destruct (create e created tbl) as [tbl'|err] eqn:Hcreate.
    - inversion Hpost; subst.
      destruct (create_appends _ _ _ _ _ Hid Hcreate) as (r & -> & Hr).
      exists r. split; [|done]. apply elem_of_app. right. apply list_elem_of_here.
    - inversion Hpost; subst. discriminate Hres. }
  unfold put_motorcycle.
  rewrite (update_typed_body tbl1 x bike specs n c y) by done.
  eexists. split; [reflexivity|]. split.
  - apply elem_of_formattedBikes. eexists. split.
    + apply list_elem_of_fmap. exists r0. split; [reflexivity|done].
    + apply where_id_has_id in Hid0 as Hw. rewrite Hw.
      symmetry. by apply (format_replaced r0 x bike specs n c y).
  - intros out Hout Hout_id.
    apply elem_of_formattedBikes in Hout as (r' & Hin' & ->).
    apply list_elem_of_fmap in Hin' as (r & -> & Hin).
    assert (has_id x r) as Hr.
    { apply to_js_text. destruct (Sqlite.where_id (SqlText x) r); by inversion Hout_id. }
    apply where_id_has_id in Hr as Hw. rewrite Hw.
    by apply (format_replaced r x bike specs n c y).
Qed.

Lemma update_replaces_every_field_witness :
  ∃ tbl2,
    put_motorcycle [flatten "2024-05-01 09:30:00" rx_king] "k3j9x0q1z" partial_update
    = ({| status := 200; payload := Json partial_update |}, tbl2)
    ∧ replaced_by "k3j9x0q1z"
        [("name", JStr "RX King Cobra II"); ("category", JStr "Yamaha");
         ("year", JNum 2001); ("modifications", JStr "Ported cylinder");
         ("specs", JObj [("power", JStr "21 HP")])]
        [("power", JStr "21 HP")] ∈ formattedBikes tbl2
    ∧ ∀ out, out ∈ formattedBikes tbl2 → get_prop out "id" = Ok (JStr "k3j9x0q1z") →
             out = replaced_by "k3j9x0q1z"
                     [("name", JStr "RX King Cobra II"); ("category", JStr "Yamaha");
                      ("year", JNum 2001); ("modifications", JStr "Ported cylinder");
                      ("specs", JObj [("power", JStr "21 HP")])]
                     [("power", JStr "21 HP")].
Proof.
  apply (update_replaces_every_field sample_env [] [flatten "2024-05-01 09:30:00" rx_king]
           (to_json rx_king) {| status := 201; payload := Json (to_json rx_king) |}
           "k3j9x0q1z" _ _ "RX King Cobra II" "Yamaha" 2001);
    try reflexivity.
  repeat split; try reflexivity.
  intros k Hk. unfold specs_fields in Hk.
  repeat (apply elem_of_cons in Hk as [->|Hk]); try (by apply elem_of_nil in Hk);
    reflexivity.
Defined.

(** An update under an [id] no row has: the UPDATE changes no row and does not
    throw, and the handler never looks at [info.changes], so it answers 200
    with the body echoed, the very response it gives when the record
    exists. *)
Lemma put_absent_id_answers_200 (tbl : table) (x : string)
    (bike specs : list (string * jsval)) (n c : string) (y : Z) :
  ¬ present x tbl →
  record_body bike specs n c y →
  put_motorcycle tbl x (JObj bike)
  = ({| status := 200; payload := Json (JObj bike) |}, tbl).
Proof.
  intros Habs Hbody. unfold put_motorcycle.
  rewrite (update_typed_body tbl x bike specs n c y) by done.
  f_equal. rewrite <- (map_id tbl) at 2. apply map_ext_in. intros r Hin.
  destruct (Sqlite.where_id (SqlText x) r) eqn:Hw; [|done].
  exfalso. apply Habs. exists r. split; [by apply list_elem_of_In|].
  by apply where_id_has_id.
Qed.

(** [C3, at the failing input] On the empty store, [PUT
    /api/motorcycles/ghost] answers 200 and echoes the body, as it does for
    the stored record [k3j9x0q1z]; the caller cannot tell the two apart. *)
Theorem put_unknown_id_reports_success :
  put_motorcycle [] "ghost" partial_update
  = ({| status := 200; payload := Json partial_update |}, [])
  ∧ (put_motorcycle sample_table "ghost" partial_update).1
    = (put_motorcycle sample_table "k3j9x0q1z" partial_update).1
  ∧ (put_motorcycle sample_table "ghost" partial_update).2 = sample_table.
Proof. vm_compute. repeat split; reflexivity. Qed.

(** *** The upload *)

Lemma unbase64_range (c : ascii) (v : Z) :
  Node.unbase64 c = Some v → 0 ≤ v < 64.
Proof.
  unfold Node.unbase64.
  repeat (match goal with
          | |- context [if ?b then _ else _] => destruct b eqn:?
          end); intros [= <-];
    rewrite ?andb_true_iff, ?Z.leb_le in *; lia.
Qed.

Lemma sextets_range (s : string) :
  Forall (λ v, 0 ≤ v < 64) (Node.sextets s).
Proof.
  induction s as [|c s IH]; simpl; [constructor|].
  destruct (Ascii.eqb c "="); [constructor|].
  destruct (Node.unbase64 c) as [v|] eqn:Hv; [|done].
  constructor; [by apply (unbase64_range c)|done].
Qed.

Lemma bytes_of_sextets (a b : Z) :
  0 ≤ a < 64 → 0 ≤ b < 64 →
  0 ≤ Node.byte0 a b < 256 ∧ 0 ≤ Node.byte1 a b < 256 ∧ 0 ≤ Node.byte2 a b < 256.
Proof.
  intros Ha Hb.
  assert (forallb (λ a, forallb (λ b,
            (0 <=? Node.byte0 a b) && (Node.byte0 a b <? 256)
            && (0 <=? Node.byte1 a b) && (Node.byte1 a b <? 256)
            && (0 <=? Node.byte2 a b) && (Node.byte2 a b <? 256))
            (seqZ 0 64)) (seqZ 0 64) = true) as Hall by (vm_compute; reflexivity).
  rewrite forallb_forall in Hall.
  assert (In a (seqZ 0 64)) as Ha' by (apply list_elem_of_In, elem_of_seqZ; lia).
  specialize (Hall a Ha'). rewrite forallb_forall in Hall.
  assert (In b (seqZ 0 64)) as Hb' by (apply list_elem_of_In, elem_of_seqZ; lia).
  specialize (Hall b Hb').
  rewrite !andb_true_iff, !Z.leb_le, !Z.ltb_lt in Hall. lia.
Qed.

(** The decoder yields bytes whatever the text. *)
Lemma buffer_from_base64_bytes (s : string) :
  Forall (λ b, 0 ≤ b < 256) (Node.buffer_from_base64 s).
Proof.
  unfold Node.buffer_from_base64.
  pose proof (sextets_range s) as Hs. revert Hs.
  generalize (Node.sextets s) as l. intros l.
  remember (length l) as k eqn:Hk.
  assert (length l ≤ k)%nat as Hle by lia. clear Hk. revert l Hle.
  induction k as [|k IH]; intros l Hle Hl.
  { destruct l; [constructor|simpl in Hle; lia]. }
  destruct l as [|a [|b [|c [|d rest]]]]; simpl; try constructor.
  - apply Forall_cons in Hl as [Ha Hl]. apply Forall_cons in Hl as [Hb _].
    by apply bytes_of_sextets.
  - constructor.
  - apply Forall_cons in Hl as [Ha Hl]. apply Forall_cons in Hl as [Hb _].
    by apply bytes_of_sextets.
  - apply Forall_cons in Hl as [Ha Hl]. apply Forall_cons in Hl as [Hb Hl].
    apply Forall_cons in Hl as [Hc _].
    constructor; [by apply (bytes_of_sextets b c)|constructor].
  - apply Forall_cons in Hl as [Ha Hl]. apply Forall_cons in Hl as [Hb _].
    by apply bytes_of_sextets.
  - apply Forall_cons in Hl as [Ha Hl]. apply Forall_cons in Hl as [Hb Hl].
    apply Forall_cons in Hl as [Hc Hl]. apply Forall_cons in Hl as [Hd Hl].
    constructor; [by apply (bytes_of_sextets b c)|].
    constructor; [by apply (bytes_of_sextets c d)|].
    apply IH; [simpl in Hle; lia|done].
Qed.

Lemma truthy_string (s : string) : s ≠ EmptyString → truthy (JStr s) = true.
Proof. intros Hs. simpl. by destruct s. Qed.

(** The handler on a body whose [image] and [fileName] are non-empty
    strings. *)
Lemma post_upload_strings
    (e : env) (dir : directory) (body : jsval) (image fileName : string) :
  get_prop body "image" = Ok (JStr image) →
  get_prop body "fileName" = Ok (JStr fileName) →
  image ≠ EmptyString → fileName ≠ EmptyString →
  let fileExt := if String.eqb (Node.extname fileName) EmptyString then ".jpg"
                 else Node.extname fileName in
  let buffer := Node.buffer_from_base64 (Node.replace_data_uri_header image) in
  post_upload e dir body =
  match write_error e with
  | None =>
      ({| status := 200;
          payload := Json (JObj [("imageUrl",
                                  JStr ("/uploads/" +:+ newFileName e fileExt))]) |},
       <[newFileName e fileExt := buffer]> dir)
  | Some _ => (json_error 500 "Failed to save uploaded image", dir)
  end.
Proof.
  intros Himage HfileName Hi Hf fileExt buffer.
  unfold post_upload.
  assert (destructure body "image" = Ok (JStr image)) as ->.
  { unfold destructure. destruct body; try done; discriminate Himage. }
  assert (destructure body "fileName" = Ok (JStr fileName)) as ->.
  { unfold destructure. destruct body; try done; discriminate HfileName. }
  cbn [mbind result_bind].
  rewrite (truthy_string _ Hi), (truthy_string _ Hf). cbn [negb orb].
  unfold upload_try, replace_header, path_extname, writeFileSync.
  cbn [mbind result_bind]. fold fileExt. fold buffer.
  by destruct (write_error e).
Qed.

(** [C10] An inline upload whose [image] and [fileName] are non-empty strings
    is never rejected for its base64.  Whatever the text of [image], the
    header strip and the decoder produce a buffer of bytes; the handler
    answers 200 with [imageUrl] of the form [/uploads/] followed by the
    generated file name, and the buffer is the content of that file.  The
    one other outcome is the 500 of a write the disk refuses, which does not
    depend on the request. *)
Theorem upload_accepts_any_base64
    (e : env) (dir : directory) (body : jsval) (image fileName : string) :
  get_prop body "image" = Ok (JStr image) →
  get_prop body "fileName" = Ok (JStr fileName) →
  image ≠ EmptyString → fileName ≠ EmptyString →
  let fileExt := if String.eqb (Node.extname fileName) EmptyString then ".jpg"
                 else Node.extname fileName in
  let buffer := Node.buffer_from_base64 (Node.replace_data_uri_header image) in
  Forall (λ b, 0 ≤ b < 256) buffer
  ∧ post_upload e dir body =
    match write_error e with
    | None =>
        ({| status := 200;
            payload := Json (JObj [("imageUrl",
                                    JStr ("/uploads/" +:+ newFileName e fileExt))]) |},
         <[newFileName e fileExt := buffer]> dir)
    | Some _ => (json_error 500 "Failed to save uploaded image", dir)
    end.
Proof.
  intros Himage HfileName Hi Hf fileExt buffer.
  split; [apply buffer_from_base64_bytes|].
  by apply post_upload_strings.
Qed.

Lemma upload_accepts_any_base64_witness :
  Forall (λ b, 0 ≤ b < 256)
         (Node.buffer_from_base64 (Node.replace_data_uri_header "<<not base64 at all>>"))
  ∧ post_upload sample_env ∅ (upload_body "<<not base64 at all>>" "bike")
    = ({| status := 200;
          payload := Json (JObj [("imageUrl",
                                  JStr ("/uploads/" +:+ newFileName sample_env ".jpg"))]) |},
       <[newFileName sample_env ".jpg" :=
           Node.buffer_from_base64 (Node.replace_data_uri_header "<<not base64 at all>>")]> ∅).
Proof.
  apply (upload_accepts_any_base64 sample_env ∅
           (upload_body "<<not base64 at all>>" "bike") "<<not base64 at all>>" "bike");
    [reflexivity|reflexivity|discriminate|discriminate].
Defined.

(** *** Uploads above the ceiling of the multer instance *)

Lemma sextets_AAAA (k : nat) :
  Node.sextets (repeat_string k "AAAA") = replicate (4 * k) 0.
Proof.
  induction k as [|k IH]; [done|].
  replace (4 * S k)%nat with (S (S (S (S (4 * k))))) by lia.
  cbn [repeat_string]. change ("AAAA" +:+ repeat_string k "AAAA")
    with (String "A" (String "A" (String "A" (String "A" (repeat_string k "AAAA"))))).
  cbn [Node.sextets Ascii.eqb Bool.eqb]. rewrite IH. reflexivity.
Qed.

Lemma pack_zeros (k : nat) :
  Node.pack (replicate (4 * k) 0) = replicate (3 * k) 0.
Proof.
  induction k as [|k IH]; [done|].
  replace (4 * S k)%nat with (S (S (S (S (4 * k))))) by lia.
  replace (3 * S k)%nat with (S (S (S (3 * k)))) by lia.
  cbn [replicate Node.pack]. by rewrite IH.
Qed.

Lemma repeat_string_AAAA_head (k : nat) :
  (0 < k)%nat → ∃ rest, repeat_string k "AAAA" = String "A" rest.
Proof. destruct k; [lia|]. intros _. by eexists. Qed.

(** The handler applies no size check of its own: the base64 text of [3 * k]
    zero bytes is decoded and written whatever [k], as long as the body
    passes the 10 MB limit of the JSON parser. *)
Lemma upload_of_any_size (e : env) (st : state) (k : nat) (len : Z) :
  (0 < k)%nat → len ≤ json_limit → write_error e = None →
  serve e st {| target := POST_upload; content_length := len;
                req_body := upload_body (repeat_string k "AAAA") "bike.png" |}
  = ({| status := 200;
        payload := Json (JObj [("imageUrl",
                                JStr ("/uploads/" +:+ newFileName e ".png"))]) |},
     {| motorcycles := motorcycles st;
        uploads := <[newFileName e ".png" := replicate (3 * k) 0]> (uploads st) |}).
Proof.
  intros Hk Hlen Hw. unfold serve, express_json.
  cbn [content_length req_body target].
  assert ((json_limit <? len) = false) as -> by by apply Z.ltb_ge.
  destruct (repeat_string_AAAA_head k Hk) as [rest Hrest].
  rewrite (post_upload_strings e (uploads st)
             (upload_body (repeat_string k "AAAA") "bike.png")
             (repeat_string k "AAAA") "bike.png");
    [|reflexivity|reflexivity|by rewrite Hrest|discriminate].
  rewrite Hw.
  assert (Node.replace_data_uri_header (repeat_string k "AAAA") = repeat_string k "AAAA")
    as -> by by rewrite Hrest.
  unfold Node.buffer_from_base64. rewrite sextets_AAAA, pack_zeros.
  reflexivity.
Qed.

(** [C4, at the failing input] An inline upload one byte over the 5 MiB
    ceiling is accepted.  The request carries the base64 text of 5242881
    bytes; [POST /api/upload] answers 200 and writes a file of
    [fileSize + 1] bytes.  The only size limit on the route is the 10 MB the
    JSON parser allows the whole body; the 5 MiB [fileSize] belongs to a
    multer instance no route uses. *)
Theorem upload_over_ceiling_accepted :
  ∃ buffer,
    serve sample_env empty_state over_ceiling_request
    = ({| status := 200;
          payload := Json (JObj [("imageUrl",
                                  JStr ("/uploads/" +:+ newFileName sample_env ".png"))]) |},
       {| motorcycles := [];
          uploads := <[newFileName sample_env ".png" := buffer]> ∅ |})
    ∧ Z.of_nat (length buffer) = fileSize + 1
    ∧ client_accepts_file (fileSize + 1) = false.
Proof.
  exists (replicate (3 * Z.to_nat 1747627) 0). split; [|split].
  - apply (upload_of_any_size sample_env empty_state (Z.to_nat 1747627) 6990542).
    + lia.
    + unfold json_limit. lia.
    + reflexivity.
  - rewrite length_replicate. unfold fileSize. lia.
  - reflexivity.
Qed.

(** *** The primary key is an invariant of the server *)

Lemma key_of_row (s : string) (tbl : table) :
  s ∈ omap row_key tbl → present s tbl.
Proof.
  intros Hs. apply list_elem_of_omap in Hs as (r & Hin & Hk).
  exists r. split; [done|]. unfold row_key in Hk. unfold has_id.
  destruct (Bike.id r); congruence.
Qed.

Lemma insert_keeps_primary_key (now : string) (params : list sqlval) (tbl tbl' : table) :
  primary_key tbl → Sqlite.insert now params tbl = Ok tbl' → primary_key tbl'.
Proof.
  intros Hpk Hins.
  do 12 (destruct params as [|? params]; [discriminate|]).
  destruct params; [|discriminate].
  unfold Sqlite.insert in Hins.
  destruct (Sqlite.not_null_violation _ _ _); [discriminate|].
  destruct (Sqlite.key_taken _ _) eqn:Hk; [discriminate|].
  inversion Hins; subst. unfold primary_key. rewrite omap_app.
  apply NoDup_app. split; [done|]. split.
  - intros k Hin Hnew. simpl in Hnew. unfold row_key in Hnew at 1.
    cbn [Bike.id] in Hnew, Hk.
    destruct (Sqlite.text_affinity s) as [| | |u] eqn:Hid;
      try (by apply elem_of_nil in Hnew).
    apply list_elem_of_singleton in Hnew as ->.
    apply key_of_row, key_taken_present in Hin. congruence.
  - simpl. destruct (row_key _); [apply NoDup_singleton|apply NoDup_nil_2].
Qed.

Lemma rewrite_keeps_keys (f : Bike.t → Bike.t) (tbl : table) :
  (∀ r, Bike.id (f r) = Bike.id r) → omap row_key (map f tbl) = omap row_key tbl.
Proof.
  intros Hf. induction tbl as [|r tbl IH]; [done|].
  change (map f (r :: tbl)) with (f r :: map f tbl).
  change (omap row_key (f r :: map f tbl))
    with (match row_key (f r) with
          | Some k => k :: omap row_key (map f tbl)
          | None => omap row_key (map f tbl)
          end).
  rewrite IH. unfold row_key at 1. by rewrite Hf.
Qed.

Lemma filter_keeps_primary_key (P : Bike.t → Prop) `{∀ r, Decision (P r)} (tbl : table) :
  primary_key tbl → primary_key (filter P tbl).
Proof.
  unfold primary_key. induction tbl as [|r tbl IH]; [done|].
  intros Hpk. rewrite filter_cons. simpl in Hpk.
  destruct (row_key r) as [k|] eqn:Hk.
  - apply NoDup_cons in Hpk as [Hnew Hpk].
    destruct (decide (P r)); [|by apply IH].
    simpl. rewrite Hk. apply NoDup_cons. split; [|by apply IH].
    intros Hin. apply Hnew.
    apply list_elem_of_omap in Hin as (r' & Hin & Hk').
    apply list_elem_of_omap. exists r'. split; [|done].
    by apply list_elem_of_filter in Hin as [_ Hin].
  - destruct (decide (P r)); [|by apply IH].
    simpl. rewrite Hk. by apply IH.
Qed.

(** Every request leaves a table that satisfies the primary key in a state
    that satisfies it. *)
Lemma serve_keeps_primary_key (e : env) (st : state) (req : request) :
  primary_key (motorcycles st) → primary_key (motorcycles (serve e st req).2).
Proof.
  intros Hpk. unfold serve.
  destruct (express_json req) as [parsed|err]; [|done].
  destruct (target req) as [| |x|x|x|]; try done.
  - unfold post_motorcycles, create.
    destruct (insert_params parsed) as [params|]; [|done].
    cbn [mbind result_bind].
    destruct (Sqlite.insert _ _ _) as [tbl'|] eqn:Hins; [|done].
    by apply (insert_keeps_primary_key _ _ _ _ Hpk Hins).
  - destruct (put_motorcycle_rewrites (motorcycles st) x parsed) as (f & Hf & Hid).
    destruct (put_motorcycle (motorcycles st) x parsed) as [res tbl']. simpl in *.
    subst tbl'. unfold primary_key. rewrite rewrite_keeps_keys; [done|]. apply Hid.
  - unfold post_motorcycle_delete. rewrite delete_runs.
    destruct (0 <? _); simpl; by apply filter_keeps_primary_key.
  - unfold delete_motorcycle. rewrite delete_runs.
    destruct (0 <? _); simpl; by apply filter_keeps_primary_key.
  - destruct (post_upload e (uploads st) parsed). done.
Qed.

(** ** Further properties of the server and of its client *)

(** *** What [path.extname] returns *)

Lemma lookup_middle_Z {A} (pre post : list A) (c : A) :
  (pre ++ c :: post) !! Z.to_nat (Z.of_nat (length pre)) = Some c.
Proof. rewrite Nat2Z.id. by apply list_lookup_middle. Qed.

Lemma scan_ok_step (pre post : list ascii) (c : ascii) (st : Node.ext_state) :
  c ≠ "/"%char →
  scan_ok (pre ++ c :: post) (Z.of_nat (length pre) + 1) st →
  scan_ok (pre ++ c :: post) (Z.of_nat (length pre))
    (if Node.end_ st =? -1
     then {| Node.startDot := Node.startDot st; Node.startPart := Node.startPart st;
             Node.end_ := Z.of_nat (length pre) + 1;
             Node.matchedSlash := false; Node.preDotState := Node.preDotState st |}
     else st).
Proof.
  intros Hc [(Hm & He & Hd)|(Hm & Hlo & Hend & Hns & Hdot)].
  - rewrite He. cbn. right. cbn. split; [done|]. split; [lia|].
    split; [rewrite length_app; simpl; lia|]. split; [|by left].
    intros j Hj. assert (j = Z.of_nat (length pre)) as -> by lia.
    rewrite lookup_middle_Z. congruence.
  - destruct (Node.end_ st =? -1) eqn:He; [apply Z.eqb_eq in He; lia|].
    right. split; [done|]. split; [lia|]. split; [lia|]. split.
    + intros j Hj. destruct (decide (j = Z.of_nat (length pre))) as [->|Hne].
      * rewrite lookup_middle_Z. congruence.
      * apply Hns. lia.
    + destruct Hdot as [Hd|[Hd1 Hd2]]; [by left|right]. split; [lia|done].
Qed.

Lemma scan_ok_fields (cs : list ascii) (lo : Z) (st st' : Node.ext_state) :
  Node.matchedSlash st' = Node.matchedSlash st →
  Node.end_ st' = Node.end_ st →
  Node.startDot st' = Node.startDot st →
  scan_ok cs lo st → scan_ok cs lo st'.
Proof. unfold scan_ok. intros -> -> ->. done. Qed.

Lemma scan_ok_dot (pre post : list ascii) (st : Node.ext_state) :
  Node.matchedSlash st = false →
  Node.startDot st = -1 →
  scan_ok (pre ++ "."%char :: post) (Z.of_nat (length pre)) st →
  scan_ok (pre ++ "."%char :: post) (Z.of_nat (length pre))
    {| Node.startDot := Z.of_nat (length pre); Node.startPart := Node.startPart st;
       Node.end_ := Node.end_ st; Node.matchedSlash := Node.matchedSlash st;
       Node.preDotState := Node.preDotState st |}.
Proof.
  intros Hm Hd [(Hm' & _)|(_ & Hlo & Hend & Hns & _)]; [congruence|].
  right. cbn. split; [done|]. split; [lia|]. split; [lia|]. split; [done|].
  right. split; [lia|]. apply lookup_middle_Z.
Qed.

Lemma scan_ok_keeps (pre post : list ascii) (st : Node.ext_state) :
  scan_ok (pre ++ post) (Z.of_nat (length pre)) st →
  ∃ lo, scan_ok (pre ++ post) lo
          (Node.extname_scan (rev pre) (Z.of_nat (length pre) - 1) st).
Proof.
  revert post st. induction pre as [|c pre IH] using rev_ind; intros post st Hok.
  { by exists 0. }
  rewrite rev_unit, length_app, <- app_assoc in *. simpl length in *. simpl app in *.
  replace (Z.of_nat (length pre + 1) - 1) with (Z.of_nat (length pre)) by lia.
  replace (Z.of_nat (length pre + 1)) with (Z.of_nat (length pre) + 1) in Hok by lia.
  cbn [Node.extname_scan].
  destruct (Ascii.eqb c "/") eqn:Hslash.
  - apply Ascii.eqb_eq in Hslash as ->.
    destruct (Node.matchedSlash st) eqn:Hm; cbn [negb].
    + apply IH. left. destruct Hok as [H|(H & _)]; [done|congruence].
    + exists (Z.of_nat (length pre) + 1).
      eapply scan_ok_fields; [| | |exact Hok]; done.
  - apply Ascii.eqb_neq in Hslash.
    pose proof (scan_ok_step pre post c st Hslash Hok) as H1.
    set (st1 := if Node.end_ st =? -1 then _ else st) in *.
    assert (Node.matchedSlash st1 = false) as Hm1.
    { subst st1. destruct (Node.end_ st =? -1) eqn:He; [done|].
      apply Z.eqb_neq in He.
      destruct Hok as [(_ & He' & _)|(Hm' & _)]; [congruence|done]. }
    apply IH.
    destruct (Ascii.eqb c ".") eqn:Hdot.
    + apply Ascii.eqb_eq in Hdot as ->.
      destruct (Node.startDot st1 =? -1) eqn:Hsd.
      * apply Z.eqb_eq in Hsd. by apply scan_ok_dot.
      * destruct (negb (Node.preDotState st1 =? 1)); [|done].
        eapply scan_ok_fields; [| | |exact H1]; done.
    + destruct (negb (Node.startDot st1 =? -1)); [|done].
      eapply scan_ok_fields; [| | |exact H1]; done.
Qed.

Lemma chars_substring (n m : nat) (s : string) :
  chars (String.substring n m s) = take m (drop n (chars s)).
Proof.
  revert n m. induction s as [|c s IH]; intros [|n] [|m]; simpl; try done.
  all: try (f_equal; apply (IH 0%nat m)); try apply IH.
Qed.

Lemma chars_append (s1 s2 : string) : chars (s1 +:+ s2) = chars s1 ++ chars s2.
Proof. induction s1 as [|c s1 IH]; simpl; [done|]. by f_equal. Qed.

(** The extension is empty, or it is a slice of the path that starts at a
    dot and holds no slash. *)
Lemma extname_slice (path : string) :
  Node.extname path = EmptyString
  ∨ ∃ sd len : nat,
      chars (Node.extname path) = take len (drop sd (chars path))
      ∧ (0 < len)%nat
      ∧ chars path !! sd = Some "."%char
      ∧ ∀ j, (sd ≤ j < sd + len)%nat → chars path !! j ≠ Some "/"%char.
Proof.
  unfold Node.extname. fold (chars path).
  assert (scan_ok (chars path ++ []) (Z.of_nat (length (chars path))) Node.ext_init)
    as Hinit by by left.
  apply scan_ok_keeps in Hinit as [lo Hok].
  rewrite app_nil_r in Hok.
  set (st := Node.extname_scan _ _ _) in *.
  match goal with
  | |- context [if ?b then _ else _] => destruct b eqn:Hcond
  end.
  { left. reflexivity. }
  right.
  rewrite !orb_false_iff in Hcond. destruct Hcond as [[[Hsd Hen] _] _].
  apply Z.eqb_neq in Hsd, Hen.
  destruct Hok as [(_ & He & _)|(_ & Hlo & Hend & Hns & Hdot)]; [done|].
  destruct Hdot as [Hd|[Hd1 Hd2]]; [done|].
  exists (Z.to_nat (Node.startDot st)), (Z.to_nat (Node.end_ st - Node.startDot st)).
  split; [apply chars_substring|]. split; [lia|]. split; [done|].
  intros j Hj. specialize (Hns (Z.of_nat j)). rewrite Nat2Z.id in Hns. apply Hns. lia.
Qed.

(** *** The generated file name *)

Lemma chars_inj (s1 s2 : string) : chars s1 = chars s2 → s1 = s2.
Proof.
  intros H. rewrite <- (String.string_of_list_ascii_of_string s1),
    <- (String.string_of_list_ascii_of_string s2). unfold chars in H. by rewrite H.
Qed.

Lemma fileExt_of_shape (fileName : string) :
  ∃ rest, chars (fileExt_of fileName) = ("."%char :: rest) ∧ ("/"%char ∉ rest)
          ∧ (Node.extname fileName = EmptyString ∨ fileExt_of fileName = Node.extname fileName).
Proof.
  unfold fileExt_of.
  destruct (extname_slice fileName) as [->|(sd & len & Hch & Hlen & Hdot & Hns)].
  { eexists. split; [reflexivity|]. split; [|by left].
    rewrite !not_elem_of_cons. repeat split; try discriminate. apply not_elem_of_nil. }
  destruct (String.eqb (Node.extname fileName) EmptyString) eqn:He.
  { apply String.eqb_eq in He. rewrite He in Hch. simpl in Hch.
    destruct len; [lia|]. apply take_drop_middle in Hdot as Hsplit.
    rewrite <- Hsplit in Hch. rewrite drop_app_length' in Hch by (rewrite length_take; apply lookup_lt_Some in Hdot; lia).
    discriminate Hch. }
  rewrite Hch. destruct len as [|len]; [lia|].
  apply take_drop_middle in Hdot as Hsplit.
  assert (drop sd (chars fileName) = "."%char :: drop (S sd) (chars fileName)) as ->.
  { rewrite <- Hsplit at 1.
    rewrite drop_app_length' by (rewrite length_take; apply lookup_lt_Some in Hdot; lia).
    done. }
  simpl. eexists. split; [reflexivity|]. split; [|by right].
  intros Hin. apply list_elem_of_lookup in Hin as [k Hk].
  apply lookup_take_Some in Hk as [Hk Hlt]. rewrite lookup_drop in Hk.
  apply (Hns (S sd + k)%nat); [lia|done].
Qed.

Lemma pretty_N_char_digit (x : N) : is_digit (pretty_N_char x) = true.
Proof. unfold pretty_N_char. by repeat case_match. Qed.

Lemma pretty_N_go_digits (x : N) (s : string) :
  Forall (λ c, is_digit c = true) (chars s) →
  Forall (λ c, is_digit c = true) (chars (pretty_N_go x s)).
Proof.
  revert s. induction (N.lt_wf_0 x) as [x _ IH]; intros s Hs.
  assert (x = 0 ∨ 0 < x)%N as [->|Hx] by lia.
  - by rewrite pretty_N_go_0.
  - rewrite pretty_N_go_step by done. apply IH.
    { by apply N.div_lt. }
    simpl. constructor; [apply pretty_N_char_digit|done].
Qed.

Lemma pretty_nonneg_digits (z : Z) :
  0 ≤ z → Forall (λ c, is_digit c = true) (chars (pretty z)).
Proof.
  intros Hz. destruct z as [|p|p]; [| |lia].
  - repeat constructor.
  - unfold pretty, pretty_Z, pretty, pretty_positive, pretty, pretty_N.
    destruct (decide (N.pos p = 0%N)); [repeat constructor|].
    apply pretty_N_go_digits. constructor.
Qed.

Lemma pretty_no_slash (z : Z) : "/"%char ∉ chars (pretty z).
Proof.
  assert (∀ l, Forall (λ c, is_digit c = true) l → "/"%char ∉ l) as Hd.
  { intros l Hl Hin. eapply Forall_forall in Hl; [|exact Hin]. discriminate Hl. }
  destruct z as [|p|p].
  - apply Hd. repeat constructor.
  - apply Hd, pretty_nonneg_digits. lia.
  - change (pretty (Z.neg p)) with ("-" +:+ pretty (Z.pos p)).
    rewrite chars_append. simpl. apply not_elem_of_cons. split; [discriminate|].
    apply Hd, pretty_nonneg_digits. lia.
Qed.

Lemma newFileName_chars (e : env) (ext : string) :
  chars (newFileName e ext)
  = chars (pretty (Date_now e)) ++ "-"%char :: chars (pretty (Math_random_1e9 e)) ++ chars ext.
Proof.
  unfold newFileName. rewrite !chars_append. simpl. by rewrite <- !app_assoc.
Qed.

Lemma newFileName_no_slash (e : env) (fileName : string) :
  "/"%char ∉ chars (newFileName e (fileExt_of fileName)).
Proof.
  rewrite newFileName_chars.
  destruct (fileExt_of_shape fileName) as (rest & -> & Hrest & _).
  rewrite !elem_of_app, !elem_of_cons, !elem_of_app, !elem_of_cons.
  intros [H|[H|[H|[H|H]]]]; try discriminate; try done;
    by apply pretty_no_slash in H.
Qed.

Lemma split_at_non_digit (l1 l2 r1 r2 : list ascii) (c1 c2 : ascii) :
  Forall (λ c, is_digit c = true) l1 → Forall (λ c, is_digit c = true) l2 →
  is_digit c1 = false → is_digit c2 = false →
  l1 ++ c1 :: r1 = l2 ++ c2 :: r2 → l1 = l2 ∧ c1 = c2 ∧ r1 = r2.
Proof.
  intros H1. revert l2. induction H1 as [|a l1 Ha _ IH]; intros l2 H2 Hc1 Hc2 Heq.
  - destruct H2 as [|b l2 Hb _]; simpl in Heq.
    + by inversion Heq.
    + inversion Heq; subst. congruence.
  - destruct H2 as [|b l2 Hb H2]; simpl in Heq.
    + inversion Heq; subst. congruence.
    + inversion Heq; subst. destruct (IH l2 H2 Hc1 Hc2) as (-> & -> & ->); done.
Qed.

(** [X1] Two generated names are equal only when the clock, the random number and
    the extension are. *)
Theorem upload_names_collide_only_on_same_draw (e1 e2 : env) (f1 f2 : string) :
  0 ≤ Date_now e1 → 0 ≤ Date_now e2 →
  0 ≤ Math_random_1e9 e1 → 0 ≤ Math_random_1e9 e2 →
  newFileName e1 (fileExt_of f1) = newFileName e2 (fileExt_of f2) →
  Date_now e1 = Date_now e2
  ∧ Math_random_1e9 e1 = Math_random_1e9 e2
  ∧ fileExt_of f1 = fileExt_of f2.
Proof.
  intros Hd1 Hd2 Hr1 Hr2 Heq. apply (f_equal chars) in Heq.
  rewrite !newFileName_chars in Heq.
  destruct (fileExt_of_shape f1) as (x1 & Hx1 & _).
  destruct (fileExt_of_shape f2) as (x2 & Hx2 & _).
  rewrite Hx1, Hx2 in Heq.
  apply split_at_non_digit in Heq as (Hd & _ & Heq);
    [|by apply pretty_nonneg_digits..|done|done].
  apply split_at_non_digit in Heq as (Hr & _ & Hx);
    [|by apply pretty_nonneg_digits..|done|done].
  split; [by apply (inj pretty), chars_inj|].
  split; [by apply (inj pretty), chars_inj|].
  apply chars_inj. by rewrite Hx1, Hx2, Hx.
Qed.

Lemma upload_names_collide_only_on_same_draw_witness :
  Date_now sample_env = Date_now later_env
  ∧ Math_random_1e9 sample_env = Math_random_1e9 later_env
  ∧ fileExt_of "front.png" = fileExt_of "rear.png".
Proof.
  apply (upload_names_collide_only_on_same_draw sample_env later_env "front.png" "rear.png");
    [by vm_compute..|reflexivity].
Defined.

(** *** The upload handler on every body *)

(** What the handler does, case by case. *)
Lemma post_upload_cases (e : env) (dir : directory) (body : jsval) :
  ((post_upload e dir body).2 = dir ∧ status (post_upload e dir body).1 = 500)
  ∨ (∃ image fileName,
       get_prop body "image" = Ok image ∧ get_prop body "fileName" = Ok fileName
       ∧ (truthy image = false ∨ truthy fileName = false)
       ∧ post_upload e dir body = (json_error 400 "Missing image data or file name", dir))
  ∨ (∃ image fileName,
       get_prop body "image" = Ok (JStr image)
       ∧ get_prop body "fileName" = Ok (JStr fileName)
       ∧ image ≠ EmptyString ∧ fileName ≠ EmptyString
       ∧ write_error e = None
       ∧ post_upload e dir body =
         ({| status := 200;
             payload := Json (JObj [("imageUrl",
                                     JStr ("/uploads/" +:+ newFileName e (fileExt_of fileName)))]) |},
          <[newFileName e (fileExt_of fileName) :=
              Node.buffer_from_base64 (Node.replace_data_uri_header image)]> dir)).
Proof.
  destruct (get_prop body "image") as [image|] eqn:Hi; cycle 1.
  { left. by destruct body. }
  destruct (get_prop body "fileName") as [fileName|] eqn:Hf; cycle 1.
  { left. by destruct body. }
  assert (destructure body "image" = Ok image) as Hdi
    by (destruct body; try done; discriminate Hi).
  assert (destructure body "fileName" = Ok fileName) as Hdf
    by (destruct body; try done; discriminate Hf).
  unfold post_upload. rewrite Hdi, Hdf. cbn [mbind result_bind].
  destruct (truthy image) eqn:Hti; cycle 1.
  { right. left. exists image, fileName. by eauto 6. }
  destruct (truthy fileName) eqn:Htf; cycle 1.
  { right. left. exists image, fileName. by eauto 6. }
  cbn [negb orb]. unfold upload_try.
  destruct image as [| | | |si| |]; try (by left).
  destruct fileName as [| | | |sf| |]; try (by left).
  cbn [replace_header path_extname mbind result_bind]. unfold writeFileSync.
  destruct (write_error e) eqn:Hw; [by left|].
  right. right. exists si, sf. cbn [mbind result_bind].
  repeat split; try done.
  - intros ->. discriminate Hti.
  - intros ->. discriminate Htf.
Qed.

(** [X2] [POST /api/upload] answers 400 exactly when [image] or [fileName] is
    missing or falsy, 200 exactly when both are non-empty strings and the
    write succeeds, and 500 otherwise. *)
Theorem upload_status (e : env) (dir : directory) (body : jsval) :
  let res := (post_upload e dir body).1 in
  (status res = 400 ↔
     ∃ image fileName,
       get_prop body "image" = Ok image ∧ get_prop body "fileName" = Ok fileName
       ∧ (truthy image = false ∨ truthy fileName = false))
  ∧ (status res = 200 ↔
     ∃ image fileName,
       get_prop body "image" = Ok (JStr image)
       ∧ get_prop body "fileName" = Ok (JStr fileName)
       ∧ image ≠ EmptyString ∧ fileName ≠ EmptyString ∧ write_error e = None)
  ∧ (status res = 400 ∨ status res = 200 ∨ status res = 500).
Proof.
  intros res. subst res.
  destruct (post_upload_cases e dir body)
    as [[Hdir Hst]|[(i & f & Hi & Hf & Hfalsy & Hpost)|(i & f & Hi & Hf & Hni & Hnf & Hw & Hpost)]].
  - rewrite Hst. split; [|split; [|by auto]].
    + split; [discriminate|]. intros (i & f & Hi & Hf & Hfalsy).
      exfalso. revert Hst. unfold post_upload.
      assert (destructure body "image" = Ok i) as ->
        by (destruct body; try done; discriminate Hi).
      assert (destructure body "fileName" = Ok f) as ->
        by (destruct body; try done; discriminate Hf).
      cbn [mbind result_bind].
      by destruct Hfalsy as [-> | ->]; destruct (truthy i); cbn.
    + split; [discriminate|]. intros (i & f & Hi & Hf & Hni & Hnf & Hw).
      exfalso. revert Hst.
      rewrite (post_upload_strings e dir body i f Hi Hf Hni Hnf), Hw. discriminate.
  - rewrite Hpost. cbn. split; [|split; [|by auto]].
    + split; [|done]. intros _. by exists i, f.
    + split; [discriminate|]. intros (i' & f' & Hi' & Hf' & Hni & Hnf & _).
      rewrite Hi in Hi'. rewrite Hf in Hf'. inversion Hi'; inversion Hf'; subst.
      destruct Hfalsy as [H|H]; simpl in H; [by destruct i'|by destruct f'].
  - rewrite Hpost. cbn. split; [|split; [|by auto]].
    + split; [discriminate|]. intros (i' & f' & Hi' & Hf' & Hfalsy).
      rewrite Hi in Hi'. rewrite Hf in Hf'. inversion Hi'; inversion Hf'; subst.
      destruct Hfalsy as [H|H]; simpl in H; [by destruct i|by destruct f].
    + split; [|done]. intros _. by exists i, f.
Qed.



(** [X4] No request removes a stored image: record routes leave the directory as
    it is, and the upload route leaves the table as it is. *)
Theorem serve_keeps_uploaded_files (e : env) (st : state) (req : request) :
  (∀ name, is_Some (uploads st !! name) →
           is_Some (uploads (serve e st req).2 !! name))
  ∧ (target req ≠ POST_upload → uploads (serve e st req).2 = uploads st)
  ∧ (target req = POST_upload → motorcycles (serve e st req).2 = motorcycles st).
Proof.
  unfold serve. destruct (express_json req) as [parsed|err]; [|done].
  destruct (target req) as [| |x|x|x|] eqn:Ht; cbn;
    try (by repeat split;
           repeat match goal with
                  | |- context [let '(_, _) := ?p in _] => destruct p
                  end).
  destruct (post_upload_cases e (uploads st) parsed)
    as [[Hdir _]|[(i & f & _ & _ & _ & Hpost)|(i & f & _ & _ & _ & _ & _ & Hpost)]].
  - destruct (post_upload e (uploads st) parsed) as [res dir']. cbn in *. by subst.
  - rewrite Hpost. done.
  - rewrite Hpost. cbn. repeat split; try done. intros name Hn.
    destruct (decide (newFileName e (fileExt_of f) = name)) as [<-|Hne].
    + rewrite lookup_insert_eq. by eexists.
    + by rewrite lookup_insert_ne.
Qed.

(** *** The data-URI header *)

Lemma skip_word_run (w rest : string) :
  Forall (λ c, Node.is_word c = true) (chars w) →
  Node.skip_word (w +:+ ";base64," +:+ rest) = ";base64," +:+ rest.
Proof.
  induction w as [|c w IH]; intros Hw; [done|].
  apply Forall_cons in Hw as [Hc Hw]. simpl. rewrite Hc. by apply IH.
Qed.

Lemma append_assoc (a b c : string) : (a +:+ b) +:+ c = a +:+ (b +:+ c).
Proof.
  induction a as [|x a IH]; [done|].
  change (String x ((a +:+ b) +:+ c) = String x (a +:+ (b +:+ c))). by rewrite IH.
Qed.

Lemma strip_prefix_append (p s : string) : Node.strip_prefix p (p +:+ s) = Some s.
Proof.
  induction p as [|a p IH]; [by destruct s|].
  change (String a p +:+ s) with (String a (p +:+ s)). simpl.
  by rewrite Ascii.eqb_refl.
Qed.

(** The header [data:image/<subtype>;base64,] is removed, whatever follows
    it. *)
Lemma replace_data_uri_header_strips (subtype payload : string) :
  subtype ≠ EmptyString →
  Forall (λ c, Node.is_word c = true) (chars subtype) →
  Node.replace_data_uri_header (data_uri_header subtype +:+ payload) = payload.
Proof.
  intros Hne Hw. unfold data_uri_header.
  rewrite !append_assoc. destruct subtype as [|c w]; [done|].
  apply Forall_cons in Hw as [Hc Hw].
  unfold Node.replace_data_uri_header. rewrite strip_prefix_append.
  change (String c w +:+ ";base64," +:+ payload)
    with (String c (w +:+ ";base64," +:+ payload)).
  cbv beta iota. rewrite Hc, (skip_word_run w payload Hw). by rewrite strip_prefix_append.
Qed.

(** [X5] An image sent as a data URI is stored as the bytes of the text after the
    header: the header itself never reaches the decoder. *)
Theorem upload_strips_data_uri_header
    (e : env) (dir : directory) (subtype payload fileName : string) :
  subtype ≠ EmptyString →
  Forall (λ c, Node.is_word c = true) (chars subtype) →
  fileName ≠ EmptyString →
  write_error e = None →
  post_upload e dir (upload_body (data_uri_header subtype +:+ payload) fileName)
  = ({| status := 200;
        payload := Json (JObj [("imageUrl",
                                JStr ("/uploads/" +:+ newFileName e (fileExt_of fileName)))]) |},
     <[newFileName e (fileExt_of fileName) := Node.buffer_from_base64 payload]> dir).
Proof.
  intros Hs Hw Hf Hwrite.
  rewrite (post_upload_strings e dir _ (data_uri_header subtype +:+ payload) fileName);
    [|reflexivity|reflexivity| |done].
  - rewrite Hwrite. by rewrite replace_data_uri_header_strips.
  - unfold data_uri_header. rewrite !append_assoc. discriminate.
Qed.

Lemma upload_strips_data_uri_header_witness :
  post_upload sample_env ∅ (upload_body (data_uri_header "png" +:+ "AAAA") "bike.png")
  = ({| status := 200;
        payload := Json (JObj [("imageUrl",
                                JStr ("/uploads/"
                                      +:+ newFileName sample_env (fileExt_of "bike.png")))]) |},
     <[newFileName sample_env (fileExt_of "bike.png") := Node.buffer_from_base64 "AAAA"]> ∅).
Proof.
  apply (upload_strips_data_uri_header sample_env ∅ "png" "AAAA" "bike.png");
    [discriminate|repeat constructor|discriminate|reflexivity].
Defined.

(** *** The size of what is written *)

Lemma strip_prefix_length (p s r : string) :
  Node.strip_prefix p s = Some r → (String.length r ≤ String.length s)%nat.
Proof.
  revert s. induction p as [|a p IH]; intros s H.
  - destruct s; inversion H; lia.
  - destruct s as [|b s]; [discriminate|]. simpl in H.
    destruct (Ascii.eqb a b); [|discriminate]. apply IH in H. simpl. lia.
Qed.

Lemma skip_word_length (s : string) :
  (String.length (Node.skip_word s) ≤ String.length s)%nat.
Proof.
  induction s as [|c s IH]; simpl; [lia|]. destruct (Node.is_word c); simpl; lia.
Qed.

Lemma replace_data_uri_header_length (s : string) :
  (String.length (Node.replace_data_uri_header s) ≤ String.length s)%nat.
Proof.
  unfold Node.replace_data_uri_header.
  destruct (Node.strip_prefix "data:image/" s) as [r1|] eqn:H1; [|lia].
  destruct r1 as [|c rest]; [lia|].
  destruct (Node.is_word c); [|lia].
  destruct (Node.strip_prefix ";base64," (Node.skip_word rest)) as [p|] eqn:H2; [|lia].
  apply strip_prefix_length in H1, H2. pose proof (skip_word_length rest). simpl in H1. lia.
Qed.

Lemma sextets_length (s : string) :
  (length (Node.sextets s) ≤ String.length s)%nat.
Proof.
  induction s as [|c s IH]; simpl; [lia|].
  destruct (Ascii.eqb c "="); [simpl; lia|].
  destruct (Node.unbase64 c); simpl; lia.
Qed.

Lemma pack_length (l : list Z) : (4 * length (Node.pack l) ≤ 3 * length l)%nat.
Proof.
  assert (∀ k l, (length l ≤ k)%nat →
                 (4 * length (Node.pack l) ≤ 3 * length l)%nat) as H; [|by apply (H (length l))].
  clear l. induction k as [|k IH]; intros l Hle.
  { destruct l; simpl in *; lia. }
  destruct l as [|a [|b [|c [|d rest]]]]; try (cbn [Node.pack length]; lia).
  assert (length rest ≤ k)%nat as Hr by (simpl in Hle; lia).
  specialize (IH rest Hr). cbn [Node.pack length]. lia.
Qed.

(** The decoded buffer is at most three quarters of the text. *)
Lemma decoded_length (image : string) :
  (4 * length (Node.buffer_from_base64 (Node.replace_data_uri_header image))
   ≤ 3 * String.length image)%nat.
Proof.
  unfold Node.buffer_from_base64.
  pose proof (pack_length (Node.sextets (Node.replace_data_uri_header image))).
  pose proof (sextets_length (Node.replace_data_uri_header image)).
  pose proof (replace_data_uri_header_length image). lia.
Qed.

(** [X6] The ceiling the server itself puts on an inline upload: the body parser
    admits at most [json_limit] bytes, the [image] string is part of the
    body, so a file the route writes has at most three quarters of
    [json_limit], 7864320 bytes. *)
Theorem upload_size_is_bounded_by_the_json_limit
    (e : env) (st : state) (req : request) (name : string) (buffer : list Z) :
  target req = POST_upload →
  (∀ image, get_prop (req_body req) "image" = Ok (JStr image) →
            Z.of_nat (String.length image) ≤ content_length req) →
  uploads (serve e st req).2 !! name = Some buffer →
  uploads st !! name ≠ Some buffer →
  Z.of_nat (length buffer) ≤ 7864320.
Proof.
  intros Ht Hlen Hnew Hold. unfold serve, express_json in Hnew.
  destruct (json_limit <? content_length req) eqn:Hlim; [done|].
  apply Z.ltb_ge in Hlim. rewrite Ht in Hnew.
  destruct (post_upload_cases e (uploads st) (req_body req))
    as [[Hdir _]|[(i & f & _ & _ & _ & Hpost)|(i & f & Hi & _ & _ & _ & _ & Hpost)]].
  - destruct (post_upload e (uploads st) (req_body req)) as [res dir']. cbn in *. by subst.
  - rewrite Hpost in Hnew. done.
  - rewrite Hpost in Hnew. cbn in Hnew.
    destruct (decide (newFileName e (fileExt_of f) = name)) as [<-|Hne].
    + rewrite lookup_insert_eq in Hnew. inversion Hnew; subst.
      pose proof (decoded_length i). specialize (Hlen i Hi).
      unfold json_limit in Hlim. lia.
    + by rewrite lookup_insert_ne in Hnew.
Qed.

Lemma upload_size_is_bounded_by_the_json_limit_witness :
  Z.of_nat (length [0; 0; 0]) ≤ 7864320.
Proof.
  apply (upload_size_is_bounded_by_the_json_limit sample_env empty_state
           small_upload_request "1700000000000-424242.png" [0; 0; 0]).
  - reflexivity.
  - intros image [= <-]. by vm_compute.
  - change (uploads (serve sample_env empty_state small_upload_request).2)
      with (<["1700000000000-424242.png" := [0; 0; 0]]> (∅ : directory)).
    apply lookup_insert_eq.
  - cbn. rewrite lookup_empty. discriminate.
Defined.

(** *** The extension of the stored file *)

Lemma scan_no_dot (l : list ascii) (i : Z) (st : Node.ext_state) :
  "."%char ∉ l → Node.startDot st = -1 →
  Node.startDot (Node.extname_scan l i st) = -1.
Proof.
  revert i st. induction l as [|c l IH]; intros i st Hl Hsd; [done|].
  apply not_elem_of_cons in Hl as [Hc Hl]. cbn [Node.extname_scan].
  destruct (Ascii.eqb c "/"); [destruct (negb _); [done|by apply IH]|].
  assert (Ascii.eqb c "." = false) as -> by (apply Ascii.eqb_neq; congruence).
  apply IH; [done|].
  destruct (Node.end_ st =? -1); cbn; rewrite Hsd; done.
Qed.

Lemma extname_no_dot (fileName : string) :
  "."%char ∉ chars fileName → Node.extname fileName = EmptyString.
Proof.
  intros Hd. unfold Node.extname. fold (chars fileName).
  rewrite scan_no_dot; [done| |done].
  intros Hin. apply Hd. apply list_elem_of_In, in_rev. by apply list_elem_of_In.
Qed.

(** [X7] A file name without a dot is stored with the extension [.jpg]. *)
Theorem upload_defaults_to_jpg
    (e : env) (dir : directory) (image fileName : string) :
  image ≠ EmptyString → fileName ≠ EmptyString →
  "."%char ∉ chars fileName →
  write_error e = None →
  post_upload e dir (upload_body image fileName)
  = ({| status := 200;
        payload := Json (JObj [("imageUrl",
                                JStr ("/uploads/" +:+ newFileName e ".jpg"))]) |},
     <[newFileName e ".jpg" :=
         Node.buffer_from_base64 (Node.replace_data_uri_header image)]> dir).
Proof.
  intros Hi Hf Hd Hw.
  rewrite (post_upload_strings e dir _ image fileName); [|done..].
  by rewrite Hw, (extname_no_dot _ Hd).
Qed.

Lemma upload_defaults_to_jpg_witness :
  post_upload sample_env ∅ (upload_body "AAAA" "bike")
  = ({| status := 200;
        payload := Json (JObj [("imageUrl",
                                JStr ("/uploads/" +:+ newFileName sample_env ".jpg"))]) |},
     <[newFileName sample_env ".jpg" :=
         Node.buffer_from_base64 (Node.replace_data_uri_header "AAAA")]> ∅).
Proof.
  apply (upload_defaults_to_jpg sample_env ∅ "AAAA" "bike");
    [discriminate|discriminate| |reflexivity].
  intros H. repeat (apply elem_of_cons in H as [H|H]; [discriminate H|]).
  by apply elem_of_nil in H.
Defined.

Lemma is_plain_spec (c : ascii) :
  is_plain c = true → Ascii.eqb c "/" = false ∧ Ascii.eqb c "." = false.
Proof. unfold is_plain. by destruct (Ascii.eqb c "/"), (Ascii.eqb c "."). Qed.

(** Plain characters after the end of the component is marked and before a
    dot is seen leave the state as it is. *)
Lemma scan_plain_run (l rest : list ascii) (i : Z) (st : Node.ext_state) :
  Forall (λ c, is_plain c = true) l →
  Node.end_ st ≠ -1 → Node.startDot st = -1 →
  Node.extname_scan (l ++ rest) i st
  = Node.extname_scan rest (i - Z.of_nat (length l)) st.
Proof.
  intros Hl He Hsd. revert i. induction Hl as [|c l Hc _ IH]; intros i.
  { simpl. f_equal. lia. }
  apply is_plain_spec in Hc as [Hs Hd].
  cbn [app Node.extname_scan]. rewrite Hs, Hd.
  apply Z.eqb_neq in He as He'. rewrite He'.
  apply Z.eqb_eq in Hsd as Hsd'. rewrite Hsd'. cbn [negb].
  rewrite IH. f_equal. simpl length. lia.
Qed.

(** From the initial state, a non-empty run of plain characters marks the
    end of the component. *)
Lemma scan_plain_first (c : ascii) (l rest : list ascii) (i : Z) :
  0 ≤ i →
  Forall (λ c, is_plain c = true) (c :: l) →
  Node.extname_scan ((c :: l) ++ rest) i Node.ext_init
  = Node.extname_scan rest (i - Z.of_nat (length (c :: l)))
      {| Node.startDot := -1; Node.startPart := 0; Node.end_ := i + 1;
         Node.matchedSlash := false; Node.preDotState := 0 |}.
Proof.
  intros Hi Hl. apply Forall_cons in Hl as [Hc Hl].
  apply is_plain_spec in Hc as [Hs Hd].
  cbn [app Node.extname_scan]. rewrite Hs, Hd. cbn.
  rewrite scan_plain_run; [|done|cbn; lia|done]. f_equal. simpl length. lia.
Qed.

(** Once the dot and a character before it are seen, the rest of the path
    changes neither [startDot] nor [end_], and [preDotState] stays away
    from 0. *)
Lemma scan_frozen (l : list ascii) (i : Z) (st : Node.ext_state) :
  Node.end_ st ≠ -1 → Node.startDot st ≠ -1 → Node.preDotState st ≠ 0 →
  let st' := Node.extname_scan l i st in
  Node.startDot st' = Node.startDot st ∧ Node.end_ st' = Node.end_ st
  ∧ Node.preDotState st' ≠ 0.
Proof.
  revert i st. induction l as [|c l IH]; intros i st He Hsd Hp; [done|].
  cbn [Node.extname_scan].
  apply Z.eqb_neq in He as He'. apply Z.eqb_neq in Hsd as Hsd'.
  destruct (Ascii.eqb c "/").
  { destruct (negb (Node.matchedSlash st)); [done|by apply IH]. }
  rewrite He', Hsd'. cbn [negb].
  destruct (Ascii.eqb c ".").
  - destruct (negb (Node.preDotState st =? 1)).
    + destruct (IH (i - 1) {| Node.startDot := Node.startDot st;
                               Node.startPart := Node.startPart st;
                               Node.end_ := Node.end_ st;
                               Node.matchedSlash := Node.matchedSlash st;
                               Node.preDotState := 1 |}) as (? & ? & ?); done.
    + by apply IH.
  - destruct (IH (i - 1) {| Node.startDot := Node.startDot st;
                             Node.startPart := Node.startPart st;
                             Node.end_ := Node.end_ st;
                             Node.matchedSlash := Node.matchedSlash st;
                             Node.preDotState := -1 |}) as (? & ? & ?); done.
Qed.

Lemma scan_dot_step (rest : list ascii) (i en : Z) :
  en ≠ -1 →
  Node.extname_scan ("."%char :: rest) i
    {| Node.startDot := -1; Node.startPart := 0; Node.end_ := en;
       Node.matchedSlash := false; Node.preDotState := 0 |}
  = Node.extname_scan rest (i - 1)
      {| Node.startDot := i; Node.startPart := 0; Node.end_ := en;
         Node.matchedSlash := false; Node.preDotState := 0 |}.
Proof.
  intros He. apply Z.eqb_neq in He.
  cbn [Node.extname_scan Node.end_ Node.startDot Node.startPart Node.matchedSlash
       Node.preDotState].
  change (Ascii.eqb "." "/") with false. change (Ascii.eqb "." ".") with true.
  cbv beta iota. rewrite He. reflexivity.
Qed.

Lemma scan_plain_after_dot (c : ascii) (rest : list ascii) (i sd en : Z) :
  is_plain c = true → sd ≠ -1 → en ≠ -1 →
  Node.extname_scan (c :: rest) i
    {| Node.startDot := sd; Node.startPart := 0; Node.end_ := en;
       Node.matchedSlash := false; Node.preDotState := 0 |}
  = Node.extname_scan rest (i - 1)
      {| Node.startDot := sd; Node.startPart := 0; Node.end_ := en;
         Node.matchedSlash := false; Node.preDotState := -1 |}.
Proof.
  intros Hc Hsd He. apply is_plain_spec in Hc as [Hs Hd].
  apply Z.eqb_neq in He, Hsd.
  cbn [Node.extname_scan Node.end_ Node.startDot Node.startPart Node.matchedSlash
       Node.preDotState].
  rewrite Hs, Hd. cbv beta iota. rewrite He. cbv beta iota zeta.
  cbn [Node.startDot]. rewrite Hsd. reflexivity.
Qed.

(** [path.extname] of a name that ends in a plain character, a dot and a
    non-empty plain extension is the dot and the extension. *)
Lemma extname_of_dotted (stem ext : string) (c : ascii) :
  is_plain c = true →
  ext ≠ EmptyString →
  Forall (λ c, is_plain c = true) (chars ext) →
  Node.extname (stem +:+ String c (String "." ext)) = String "." ext.
Proof.
  intros Hc Hne Hext. apply chars_inj.
  unfold Node.extname. fold (chars (stem +:+ String c (String "." ext))).
  rewrite chars_append. cbn [chars String.list_ascii_of_string]. fold (chars ext).
  assert (0 < length (chars ext))%nat as Hm by (destruct ext; [done|simpl; lia]).
  rewrite length_app. cbn [length].
  rewrite rev_app_distr. cbn [rev]. rewrite <- !app_assoc. cbn [app].
  destruct (rev (chars ext)) as [|x xs] eqn:Hrev.
  { apply (f_equal (@length _)) in Hrev. rewrite length_rev in Hrev. simpl in Hrev. lia. }
  assert (Forall (λ c, is_plain c = true) (x :: xs)) as Hplain.
  { rewrite <- Hrev. apply Forall_forall. intros y Hy.
    eapply Forall_forall in Hext; [exact Hext|].
    apply list_elem_of_In, in_rev. by apply list_elem_of_In. }
  assert (length (x :: xs) = length (chars ext)) as Hlen
    by (rewrite <- Hrev; apply length_rev).
  set (n := length (chars stem)) in *. set (m := length (chars ext)) in *.
  rewrite scan_plain_first; [|lia|done]. rewrite Hlen.
  rewrite scan_dot_step by lia.
  rewrite scan_plain_after_dot; [|done|lia|lia].
  match goal with
  | |- context [Node.extname_scan ?l ?i ?st] =>
      destruct (scan_frozen l i st) as (Hsd & Hen & Hpd); [cbn; lia..|];
      set (st' := Node.extname_scan l i st) in *
  end.
  cbn in Hsd, Hen. rewrite Hsd, Hen.
  replace (Z.of_nat (n + S (S m)) - 1 - Z.of_nat m =? -1) with false
    by (symmetry; apply Z.eqb_neq; lia).
  replace (Z.of_nat (n + S (S m)) - 1 + 1 =? -1) with false
    by (symmetry; apply Z.eqb_neq; lia).
  apply Z.eqb_neq in Hpd. rewrite Hpd.
  replace (Z.of_nat (n + S (S m)) - 1 - Z.of_nat m =? Z.of_nat (n + S (S m)) - 1 + 1 - 1)
    with false by (symmetry; apply Z.eqb_neq; lia).
  rewrite andb_false_r. cbn [orb andb].
  rewrite chars_substring, chars_append. cbn [chars String.list_ascii_of_string].
  fold (chars ext). fold (chars stem).
  replace (Z.to_nat (Z.of_nat (n + S (S m)) - 1 - Z.of_nat m)) with (S n) by lia.
  replace (Z.to_nat (Z.of_nat (n + S (S m)) - 1 + 1 - (Z.of_nat (n + S (S m)) - 1 - Z.of_nat m)))
    with (S m) by lia.
  change (chars stem ++ c :: "."%char :: chars ext)
    with (chars stem ++ [c] ++ "."%char :: chars ext).
  rewrite app_assoc, drop_app_length' by (rewrite length_app; simpl; lia).
  subst m. by rewrite take_ge by (simpl; lia).
Qed.

(** [X8] A file name that ends in a dot and a non-empty extension, with a
    character before the dot, is stored under that extension. *)
Theorem upload_keeps_extension
    (e : env) (dir : directory) (image stem ext : string) (c : ascii) :
  image ≠ EmptyString →
  is_plain c = true →
  ext ≠ EmptyString →
  Forall (λ c, is_plain c = true) (chars ext) →
  write_error e = None →
  post_upload e dir (upload_body image (stem +:+ String c (String "." ext)))
  = ({| status := 200;
        payload := Json (JObj [("imageUrl",
                                JStr ("/uploads/" +:+ newFileName e (String "." ext)))]) |},
     <[newFileName e (String "." ext) :=
         Node.buffer_from_base64 (Node.replace_data_uri_header image)]> dir).
Proof.
  intros Hi Hc He Hext Hw.
  rewrite (post_upload_strings e dir _ image (stem +:+ String c (String "." ext)));
    [|done|done|done|by destruct stem].
  by rewrite Hw, (extname_of_dotted _ _ _ Hc He Hext).
Qed.

Lemma upload_keeps_extension_witness :
  post_upload sample_env ∅ (upload_body "AAAA" ("bik" +:+ String "e" (String "." "png")))
  = ({| status := 200;
        payload := Json (JObj [("imageUrl",
                                JStr ("/uploads/"
                                      +:+ newFileName sample_env (String "." "png")))]) |},
     <[newFileName sample_env (String "." "png") :=
         Node.buffer_from_base64 (Node.replace_data_uri_header "AAAA")]> ∅).
Proof.
  apply (upload_keeps_extension sample_env ∅ "AAAA" "bik" "png" "e");
    [discriminate|reflexivity|discriminate|repeat constructor|reflexivity].
Defined.

(** *** The list call *)

Lemma string_compare_lt_trans (s t u : string) :
  String.compare s t = Lt → String.compare t u = Lt → String.compare s u = Lt.
Proof.
  intros H1 H2.
  apply OrderedTypeEx.String_as_OT.cmp_lt.
  eapply OrderedTypeEx.String_as_OT.lt_trans;
    apply OrderedTypeEx.String_as_OT.cmp_lt; eassumption.
Qed.

Lemma sql_compare_antisym (a b : sqlval) :
  Sqlite.sql_compare a b = CompOpp (Sqlite.sql_compare b a).
Proof.
  destruct a, b; simpl; try done; try apply Z.compare_antisym.
  apply String.compare_antisym.
Qed.

Lemma string_compare_ge_trans (s t u : string) :
  String.compare s t ≠ Lt → String.compare t u ≠ Lt → String.compare s u ≠ Lt.
Proof.
  intros H1 H2 H3.
  destruct (String.compare s t) eqn:E1; [|done|].
  { apply String.compare_eq_iff in E1 as ->. done. }
  destruct (String.compare t u) eqn:E2; [|done|].
  { apply String.compare_eq_iff in E2 as ->. congruence. }
  rewrite String.compare_antisym in E1, E2.
  destruct (String.compare t s) eqn:E1'; try done.
  destruct (String.compare u t) eqn:E2'; try done.
  pose proof (string_compare_lt_trans _ _ _ E2' E1') as H.
  rewrite String.compare_antisym, H in H3. done.
Qed.

Lemma sql_compare_ge_trans (a b c : sqlval) :
  Sqlite.sql_compare a b ≠ Lt → Sqlite.sql_compare b c ≠ Lt →
  Sqlite.sql_compare a c ≠ Lt.
Proof.
  destruct a, b, c; simpl; try done; try (rewrite !Z.compare_lt_iff; lia).
  apply string_compare_ge_trans.
Qed.

#[local] Instance newest_first_total : Total Sqlite.newest_first.
Proof.
  intros r1 r2. unfold Sqlite.newest_first.
  rewrite (sql_compare_antisym (Bike.created_at r2)).
  destruct (Sqlite.sql_compare (Bike.created_at r1) (Bike.created_at r2)); simpl; auto.
Qed.

#[local] Instance newest_first_trans : Transitive Sqlite.newest_first.
Proof. intros r1 r2 r3. apply sql_compare_ge_trans. Qed.

(** [X9] The list call answers 200 with every stored record exactly once, no
    record before one that was created later. *)
Theorem list_shows_every_record_newest_first (tbl : table) :
  status (get_motorcycles tbl) = 200
  ∧ payload (get_motorcycles tbl) = Json (JArr (map format_bike (Sqlite.select_all tbl)))
  ∧ Sqlite.select_all tbl ≡ₚ tbl
  ∧ StronglySorted Sqlite.newest_first (Sqlite.select_all tbl).
Proof.
  split; [done|]. split; [done|]. split.
  - apply merge_sort_Permutation.
  - apply StronglySorted_merge_sort; apply _.
Qed.

Lemma to_js_defined (v : sqlval) : Sqlite.to_js v ≠ JUndefined.
Proof. by destruct v. Qed.

(** [X10] Every record of the list call has the seven scalar fields and, under
    [specs], the five fields of the nested shape, each of them a value or
    [null], and no [created_at]. *)
Theorem listed_record_has_every_field (tbl : table) :
  Forall (λ out,
            get_prop out "created_at" = Ok JUndefined
            ∧ (∀ k, k ∈ record_fields → ∃ v, get_prop out k = Ok v ∧ v ≠ JUndefined)
            ∧ (∀ k, k ∈ specs_fields → ∃ v, get_spec out k = Ok v ∧ v ≠ JUndefined))
         (formattedBikes tbl).
Proof.
  apply Forall_forall. intros out Hout.
  apply elem_of_formattedBikes in Hout as (r & _ & ->).
  split; [done|]. split; intros k Hk.
  - unfold record_fields in Hk.
    repeat (apply elem_of_cons in Hk as [->|Hk];
            [eexists; split; [reflexivity|apply to_js_defined]|]).
    by apply elem_of_nil in Hk.
  - unfold specs_fields in Hk.
    repeat (apply elem_of_cons in Hk as [->|Hk];
            [eexists; split; [reflexivity|apply to_js_defined]|]).
    by apply elem_of_nil in Hk.
Qed.

(** *** [POST /api/motorcycles] on any body *)

Lemma insert_appends (now : string) (params : list sqlval) (tbl tbl' : table) :
  Sqlite.insert now params tbl = Ok tbl' →
  ∃ r, tbl' = tbl ++ [r]
       ∧ Bike.created_at r = SqlText now
       ∧ Sqlite.not_null_violation (Bike.name r) (Bike.category r) (Bike.year r) = None
       ∧ Sqlite.key_taken (Bike.id r) tbl = false.
Proof.
  unfold Sqlite.insert.
  destruct params as [|p1 [|p2 [|p3 [|p4 [|p5 [|p6 [|p7 [|p8 [|p9 [|p10 [|p11
    [|p12 [|]]]]]]]]]]]]]; try done.
  cbv zeta. cbn [Bike.id Bike.name Bike.category Bike.year].
  match goal with |- context [Sqlite.not_null_violation ?a ?b ?c] =>
    destruct (Sqlite.not_null_violation a b c) eqn:Hnn end; [done|].
  match goal with |- context [Sqlite.key_taken ?a ?b] =>
    destruct (Sqlite.key_taken a b) eqn:Hk end; [done|].
  intros [= <-]. eexists. split; [reflexivity|]. by cbn.
Qed.

Lemma not_null_violation_none (a b c : sqlval) :
  Sqlite.not_null_violation a b c = None ↔
  is_null a = false ∧ is_null b = false ∧ is_null c = false.
Proof.
  unfold Sqlite.not_null_violation.
  destruct (is_null a), (is_null b), (is_null c); intuition congruence.
Qed.

(** [X11] Whatever the body, a create either answers 500 and leaves the table as
    it was, or answers 201 with the body and appends one row: stamped with
    the current time, with [name], [category] and [year] not NULL and a key
    no other row has. *)
Theorem create_appends_one_row_or_nothing (e : env) (tbl : table) (bike : jsval) :
  post_motorcycles e tbl bike = (json_error 500 "Failed to add motorcycle", tbl)
  ∨ ∃ r, post_motorcycles e tbl bike
         = ({| status := 201; payload := Json bike |}, tbl ++ [r])
         ∧ Bike.created_at r = SqlText (CURRENT_TIMESTAMP e)
         ∧ is_null (Bike.name r) = false
         ∧ is_null (Bike.category r) = false
         ∧ is_null (Bike.year r) = false
         ∧ Sqlite.key_taken (Bike.id r) tbl = false.
Proof.
  unfold post_motorcycles.
  destruct (create e bike tbl) as [tbl'|err] eqn:Hc; [right|by left].
  unfold create in Hc.
  destruct (insert_params bike) as [params|]; [|done]. simpl in Hc.
  apply insert_appends in Hc as (r & -> & Hts & Hnn & Hk).
  apply not_null_violation_none in Hnn as (? & ? & ?).
  by exists r.
Qed.

(** *** Required fields *)

Lemma bind_args_first (b : bool) (v : jsval) (rest : list jsval) (ps : list sqlval) :
  one_param v = true →
  Sqlite.bind_args b (v :: rest) = Ok ps →
  ∃ p qs, ps = p :: qs ∧ Sqlite.bind_value v = Ok p ∧ Sqlite.bind_args b rest = Ok qs.
Proof.
  intros Hv. destruct v; try done; simpl;
    destruct (Sqlite.bind_args b rest) as [qs|]; try done;
    intros [= <-]; eauto.
Qed.

Lemma bind_value_nullish (v : jsval) (p : sqlval) :
  nullish v = true → Sqlite.bind_value v = Ok p → p = SqlNull.
Proof. destruct v; try done; by intros _ [= <-]. Qed.

Lemma nullish_one_param (v : jsval) : nullish v = true → one_param v = true.
Proof. by destruct v. Qed.

Lemma mutable_args_head (props : list (string * jsval)) (args : list jsval) :
  mutable_args (JObj props) = Ok args →
  ∃ rest, args = lookup_prop "name" props :: lookup_prop "category" props
                 :: lookup_prop "year" props :: rest.
Proof.
  unfold mutable_args, get_spec. cbn [get_prop mbind result_bind].
  destruct (get_prop (lookup_prop "specs" props) "engine"); [|done].
  destruct (get_prop (lookup_prop "specs" props) "power"); [|done].
  destruct (get_prop (lookup_prop "specs" props) "torque"); [|done].
  destruct (get_prop (lookup_prop "specs" props) "weight"); [|done].
  destruct (get_prop (lookup_prop "specs" props) "topSpeed"); [|done].
  intros [= <-]. eauto.
Qed.

Lemma bind_required (b : bool) (name category year : jsval) (rest : list jsval)
    (ps : list sqlval) :
  one_param name = true → one_param category = true →
  nullish name || nullish category || nullish year = true →
  Sqlite.bind_args b (name :: category :: year :: rest) = Ok ps →
  ∃ p1 p2 qs, ps = p1 :: p2 :: qs
              ∧ (p1 = SqlNull ∨ p2 = SqlNull ∨ ∃ qs', qs = SqlNull :: qs').
Proof.
  intros Hn Hc Hnull Hb.
  apply bind_args_first in Hb as (p1 & qs1 & -> & Hp1 & Hb); [|done].
  apply bind_args_first in Hb as (p2 & qs2 & -> & Hp2 & Hb); [|done].
  exists p1, p2, qs2. split; [done|].
  destruct (nullish name) eqn:En.
  { left. by apply (bind_value_nullish _ _ En). }
  destruct (nullish category) eqn:Ec.
  { right; left. by apply (bind_value_nullish _ _ Ec). }
  simpl in Hnull. right; right.
  apply bind_args_first in Hb as (p3 & qs & -> & Hp3 & Hb);
    [|by apply nullish_one_param].
  apply (bind_value_nullish _ _ Hnull) in Hp3 as ->. eauto.
Qed.

Lemma text_affinity_null (p : sqlval) :
  p = SqlNull → is_null (Sqlite.text_affinity p) = true.
Proof. by intros ->. Qed.

Lemma not_null_violation_some (a b c : sqlval) :
  is_null a = true ∨ is_null b = true ∨ is_null c = true →
  ∃ column, Sqlite.not_null_violation a b c = Some column.
Proof.
  unfold Sqlite.not_null_violation.
  destruct (is_null a), (is_null b), (is_null c); intros [?|[?|?]]; eauto; done.
Qed.

Lemma insert_null_required (now : string) (p0 p1 p2 : sqlval) (qs : list sqlval)
    (tbl : table) :
  p1 = SqlNull ∨ p2 = SqlNull ∨ (∃ qs', qs = SqlNull :: qs') →
  ∃ err, Sqlite.insert now (p0 :: p1 :: p2 :: qs) tbl = Throw err.
Proof.
  intros Hnull. unfold Sqlite.insert.
  destruct qs as [|p4 [|p5 [|p6 [|p7 [|p8 [|p9 [|p10 [|p11 [|p12 [|]]]]]]]]]];
    try by eauto.
  cbv zeta. cbn [Bike.id Bike.name Bike.category Bike.year].
  destruct (not_null_violation_some (Sqlite.text_affinity p1) (Sqlite.text_affinity p2)
              (Sqlite.integer_affinity p4)) as [column ->]; [|by eauto].
  destruct Hnull as [->|[->|(qs' & [= -> _])]]; auto.
Qed.

(** [X12] A create whose body lacks [name], [category] or [year] (or has [null]
    there) answers 500 and stores nothing.  The fields before the missing
    one are taken to be values that bind as one parameter each. *)
Theorem create_requires_name_category_year
    (e : env) (tbl : table) (props : list (string * jsval)) :
  one_param (lookup_prop "id" props) = true →
  one_param (lookup_prop "name" props) = true →
  one_param (lookup_prop "category" props) = true →
  nullish (lookup_prop "name" props) || nullish (lookup_prop "category" props)
  || nullish (lookup_prop "year" props) = true →
  post_motorcycles e tbl (JObj props)
  = (json_error 500 "Failed to add motorcycle", tbl).
Proof.
  intros Hi Hn Hc Hnull. unfold post_motorcycles.
  destruct (create e (JObj props) tbl) as [tbl'|] eqn:Hcr; [exfalso|done].
  unfold create in Hcr.
  destruct (insert_params (JObj props)) as [params|] eqn:Hp; [|done].
  simpl in Hcr. unfold insert_params in Hp. cbn [get_prop mbind result_bind] in Hp.
  destruct (mutable_args (JObj props)) as [args|] eqn:Ha; [|done].
  apply mutable_args_head in Ha as [rest ->].
  unfold Sqlite.bind_parameters in Hp. cbn [mbind result_bind] in Hp.
  destruct (Sqlite.bind_args false _) as [ps|] eqn:Hb; [|done].
  apply bind_args_first in Hb as (p0 & qs0 & -> & _ & Hb); [|done].
  apply bind_required in Hb as (p1 & p2 & qs & -> & Hq); [|done..].
  simpl in Hp.
  repeat match type of Hp with context [if ?c then _ else _] => destruct c; try done end.
  injection Hp as <-.
  destruct (insert_null_required (CURRENT_TIMESTAMP e) p0 p1 p2 qs tbl Hq) as [err Herr].
  congruence.
Qed.

Lemma create_requires_name_category_year_witness :
  post_motorcycles sample_env sample_table (JObj body_without_name)
  = (json_error 500 "Failed to add motorcycle", sample_table).
Proof.
  apply (create_requires_name_category_year sample_env sample_table body_without_name);
    reflexivity.
Defined.

(** *** [PUT /api/motorcycles/:id] on any body *)

(** What an update does depends on the table only through the statement:
    the arguments are read and bound before it runs. *)
Lemma update_shape (x : string) (bike : jsval) :
  (∃ err, ∀ tbl, update x bike tbl = Throw err)
  ∨ (∃ args ps, mutable_args bike = Ok args
                ∧ Sqlite.bind_args false args = Ok ps
                ∧ length ps = 11%nat
                ∧ ∀ tbl, update x bike tbl = Sqlite.update (ps ++ [SqlText x]) tbl).
Proof.
  unfold update.
  destruct (mutable_args bike) as [args|err]; [|left; by exists err].
  cbn [mbind result_bind]. unfold Sqlite.bind_parameters.
  rewrite bind_args_snoc.
  destruct (Sqlite.bind_args false args) as [ps|err] eqn:Hb; [|left; by exists err].
  cbn [mbind result_bind]. rewrite length_app. cbn [length].
  destruct (length ps + 1 <? 12)%nat eqn:E1; [left; by eexists|].
  destruct (12 <? length ps + 1)%nat eqn:E2; [left; by eexists|].
  right. exists args, ps. split; [done|]. split; [done|]. split; [|done].
  apply Nat.ltb_ge in E1, E2. lia.
Qed.

Lemma update_null_required (p1 p2 x : sqlval) (qs : list sqlval) (tbl : table) :
  length qs = 9%nat →
  p1 = SqlNull ∨ p2 = SqlNull ∨ (∃ qs', qs = SqlNull :: qs') →
  existsb (Sqlite.where_id x) tbl = true →
  ∃ err, Sqlite.update ((p1 :: p2 :: qs) ++ [x]) tbl = Throw err.
Proof.
  intros Hlen Hnull Hex.
  destruct qs as [|p3 [|p4 [|p5 [|p6 [|p7 [|p8 [|p9 [|p10 [|p11 [|]]]]]]]]]]; try done.
  cbn [app]. unfold Sqlite.update.
  destruct (not_null_violation_some (Sqlite.text_affinity p1) (Sqlite.text_affinity p2)
              (Sqlite.integer_affinity p3)) as [column ->].
  { destruct Hnull as [->|[->|(qs' & [= -> _])]]; auto. }
  rewrite Hex. eauto.
Qed.

(** [X13] An update of a stored record whose body lacks [name], [category] or
    [year] (or has [null] there) answers 500 and changes nothing.  The
    fields before the missing one are taken to be values that bind as one
    parameter each. *)
Theorem update_requires_name_category_year
    (tbl : table) (x : string) (props : list (string * jsval)) :
  present x tbl →
  one_param (lookup_prop "name" props) = true →
  one_param (lookup_prop "category" props) = true →
  nullish (lookup_prop "name" props) || nullish (lookup_prop "category" props)
  || nullish (lookup_prop "year" props) = true →
  put_motorcycle tbl x (JObj props)
  = (json_error 500 "Failed to update motorcycle", tbl).
Proof.
  intros Hx Hn Hc Hnull. unfold put_motorcycle.
  destruct (update_shape x (JObj props)) as [[err H]|(args & ps & Ha & Hb & Hlen & H)];
    rewrite H; [done|].
  apply mutable_args_head in Ha as [rest ->].
  apply bind_required in Hb as (p1 & p2 & qs & -> & Hq); [|done..].
  apply existsb_where_id_present in Hx.
  destruct (update_null_required p1 p2 (SqlText x) qs tbl) as [err ->]; auto.
  simpl in Hlen. lia.
Qed.

Lemma update_requires_name_category_year_witness :
  put_motorcycle sample_table "k3j9x0q1z" (JObj body_without_name)
  = (json_error 500 "Failed to update motorcycle", sample_table).
Proof.
  apply (update_requires_name_category_year sample_table "k3j9x0q1z" body_without_name);
    [|reflexivity..].
  exists (flatten "2024-04-30 18:00:00" rx_king). split; [by left|reflexivity].
Defined.

(** [X14] An update under an identifier that is not stored changes nothing,
    whatever the body. *)
Theorem update_of_absent_id_changes_nothing
    (tbl : table) (x : string) (bike : jsval) :
  ¬ present x tbl → (put_motorcycle tbl x bike).2 = tbl.
Proof.
  intros Hx.
  destruct (put_motorcycle_rewrites tbl x bike) as (f & -> & Hf).
  rewrite <- (map_id tbl) at 2. apply map_ext_in. intros r Hr.
  apply Hf. intros Hid. apply Hx. exists r. split; [|done].
  by apply list_elem_of_In.
Qed.

Lemma update_of_absent_id_changes_nothing_witness :
  (put_motorcycle sample_table "ghost" partial_update).2 = sample_table.
Proof.
  apply (update_of_absent_id_changes_nothing sample_table "ghost" partial_update).
  intros (r & Hr & Hid). apply list_elem_of_singleton in Hr. subst r. discriminate Hid.
Defined.

Lemma where_id_set_columns (x n c y d m i e p t w s : sqlval) (r : Bike.t) :
  Sqlite.where_id x (Sqlite.set_columns n c y d m i e p t w s r) = Sqlite.where_id x r.
Proof. done. Qed.

Lemma changes_map (x : sqlval) (g : Bike.t → Bike.t) (tbl : table) :
  (∀ r, Sqlite.where_id x (g r) = Sqlite.where_id x r) →
  Sqlite.changes (Sqlite.where_id x) (map g tbl) = Sqlite.changes (Sqlite.where_id x) tbl.
Proof.
  intros Hg. unfold Sqlite.changes. f_equal.
  induction tbl as [|r tbl IH]; [done|].
  cbn [map]. rewrite !filter_cons, Hg.
  destruct (decide (Sqlite.where_id x r = true)); simpl; by rewrite IH.
Qed.

Lemma sqlite_update_idempotent (params : list sqlval) (tbl tbl' : table) (n : Z) :
  Sqlite.update params tbl = Ok (tbl', n) →
  Sqlite.update params tbl' = Ok (tbl', n).
Proof.
  unfold Sqlite.update.
  destruct params as [|p1 [|p2 [|p3 [|p4 [|p5 [|p6 [|p7 [|p8 [|p9 [|p10 [|p11
    [|p12 [|]]]]]]]]]]]]]; try done.
  destruct (Sqlite.not_null_violation _ _ _).
  - destruct (existsb (Sqlite.where_id p12) tbl) eqn:Hex; [done|].
    intros [= <- <-]. by rewrite Hex.
  - intros [= <- <-]. f_equal. f_equal.
    + rewrite map_map. apply map_ext. intros r.
      destruct (Sqlite.where_id p12 r) eqn:Hr.
      * by rewrite where_id_set_columns, Hr.
      * by rewrite Hr.
    + apply changes_map. intros r.
      destruct (Sqlite.where_id p12 r) eqn:Hr; [|done].
      by rewrite where_id_set_columns.
Qed.

(** [X15] Sending the same update twice is the same as sending it once: the
    second answer and the table after it are those of the first. *)
Theorem update_is_idempotent (tbl : table) (x : string) (bike : jsval) :
  put_motorcycle (put_motorcycle tbl x bike).2 x bike = put_motorcycle tbl x bike.
Proof.
  unfold put_motorcycle.
  destruct (update_shape x bike) as [[err H]|(args & ps & _ & _ & _ & H)].
  { by rewrite !H. }
  rewrite (H tbl).
  destruct (Sqlite.update (ps ++ [SqlText x]) tbl) as [[tbl' n]|err] eqn:Hu.
  - cbn [snd]. by rewrite H, (sqlite_update_idempotent _ _ _ _ Hu).
  - cbn [snd]. by rewrite H, Hu.
Qed.

(** *** The delete routes *)

Lemma delete_motorcycle_table (tbl : table) (x : string) :
  (delete_motorcycle tbl x).2 = filter (λ r, Sqlite.where_id (SqlText x) r = false) tbl.
Proof.
  unfold delete_motorcycle. rewrite delete_runs.
  by destruct (0 <? Sqlite.changes (Sqlite.where_id (SqlText x)) tbl).
Qed.

Lemma absent_after_filter (x : string) (tbl : table) :
  ¬ present x (filter (λ r, Sqlite.where_id (SqlText x) r = false) tbl).
Proof.
  intros (r & Hr & Hid). apply list_elem_of_filter in Hr as [Hr _].
  by apply where_id_false in Hr.
Qed.

(** [X16] A delete removes the records with the identifier and no other, in place;
    after it the identifier is not stored, and a second delete answers 404
    and changes nothing. *)
Theorem delete_removes_exactly_the_id (tbl : table) (x : string) :
  let tbl' := (delete_motorcycle tbl x).2 in
  (∀ r, r ∈ tbl' ↔ r ∈ tbl ∧ ¬ has_id x r)
  ∧ sublist tbl' tbl
  ∧ delete_motorcycle tbl' x = (json_error 404 "Motorcycle not found", tbl').
Proof.
  cbv zeta. rewrite delete_motorcycle_table. split; [|split].
  - intros r. rewrite list_elem_of_filter, where_id_false. tauto.
  - apply sublist_filter.
  - pose proof (absent_after_filter x tbl) as Habs.
    unfold delete_motorcycle. rewrite delete_runs.
    destruct (0 <? _) eqn:Hc; [by apply changes_positive in Hc|].
    by rewrite (filter_absent _ _ Habs).
Qed.

Lemma created_key_was_free (e : env) (bike : jsval) (x : string) (tbl tbl1 : table) :
  get_prop bike "id" = Ok (JStr x) → create e bike tbl = Ok tbl1 → ¬ present x tbl.
Proof.
  intros Hid Hc. pose proof Hc as Hc'.
  apply (create_appends _ _ _ _ _ Hid) in Hc' as (r & -> & Hr).
  unfold create in Hc.
  destruct (insert_params bike) as [params|]; [|done]. simpl in Hc.
  apply insert_appends in Hc as (r' & Heq & _ & _ & Hk).
  apply app_inj_tail in Heq as [_ <-].
  rewrite Hr in Hk. intros Hp. apply key_taken_present in Hp. congruence.
Qed.

(** [X17] A delete undoes a create: after a create that answered 201, the delete
    of its identifier answers 204 and the table is the one before the
    create. *)
Theorem delete_undoes_create
    (e : env) (tbl tbl1 : table) (bike : jsval) (res : response) (x : string) :
  post_motorcycles e tbl bike = (res, tbl1) →
  status res = 201 →
  get_prop bike "id" = Ok (JStr x) →
  delete_motorcycle tbl1 x = ({| status := 204; payload := Empty |}, tbl).
Proof.
  intros Hpost Hst Hid. unfold post_motorcycles in Hpost.
  destruct (create e bike tbl) as [tbl'|] eqn:Hc.
  2: { injection Hpost as <- <-. done. }
  injection Hpost as <- <-.
  pose proof (created_key_was_free _ _ _ _ _ Hid Hc) as Habs.
  apply (create_appends _ _ _ _ _ Hid) in Hc as (r & -> & Hr).
  unfold delete_motorcycle. rewrite delete_runs.
  destruct (0 <? _) eqn:Hch.
  - f_equal. rewrite filter_app, (filter_absent _ _ Habs).
    rewrite filter_cons, filter_nil.
    apply where_id_has_id in Hr.
    destruct (decide _) as [Hd|Hd]; [congruence|]. by rewrite app_nil_r.
  - exfalso. apply not_true_iff_false in Hch. apply Hch, changes_positive.
    exists r. split; [|done]. apply elem_of_app. right. apply elem_of_cons. by left.
Qed.

Lemma delete_undoes_create_witness :
  delete_motorcycle [flatten "2024-05-01 09:30:00" rx_king] "k3j9x0q1z"
  = ({| status := 204; payload := Empty |}, []).
Proof.
  apply (delete_undoes_create sample_env [] [flatten "2024-05-01 09:30:00" rx_king]
           (to_json rx_king) {| status := 201; payload := Json (to_json rx_king) |}
           "k3j9x0q1z");
    reflexivity.
Defined.

(** [X18] The identifier of a deleted record is free again: the record can be
    created anew and comes last in the table. *)
Theorem deleted_id_can_be_created_again (e : env) (tbl : table) (m : Motorcycle) :
  let tbl' := (delete_motorcycle tbl (id m)).2 in
  post_motorcycles e tbl' (to_json m)
  = ({| status := 201; payload := Json (to_json m) |},
     tbl' ++ [flatten (CURRENT_TIMESTAMP e) m]).
Proof.
  cbv zeta. rewrite delete_motorcycle_table.
  unfold post_motorcycles. by rewrite (create_record _ _ _ (absent_after_filter _ _)).
Qed.

(** *** Invariants of the table *)

Lemma sqlite_update_keeps_required (params : list sqlval) (tbl tbl' : table) (n : Z) :
  Forall required_columns tbl →
  Sqlite.update params tbl = Ok (tbl', n) →
  Forall required_columns tbl'.
Proof.
  intros Hreq. unfold Sqlite.update.
  destruct params as [|p1 [|p2 [|p3 [|p4 [|p5 [|p6 [|p7 [|p8 [|p9 [|p10 [|p11
    [|p12 [|]]]]]]]]]]]]]; try done.
  destruct (Sqlite.not_null_violation _ _ _) eqn:Hnn.
  - destruct (existsb _ _); [done|]. by intros [= <- <-].
  - intros [= <- <-]. apply not_null_violation_none in Hnn.
    apply Forall_map. eapply Forall_impl; [exact Hreq|].
    intros r Hr. by destruct (Sqlite.where_id p12 r).
Qed.

Lemma put_keeps_required (tbl : table) (x : string) (bike : jsval) :
  Forall required_columns tbl → Forall required_columns (put_motorcycle tbl x bike).2.
Proof.
  intros Hreq. unfold put_motorcycle.
  destruct (update_shape x bike) as [[err H]|(args & ps & _ & _ & _ & H)]; rewrite H.
  { done. }
  destruct (Sqlite.update (ps ++ [SqlText x]) tbl) as [[tbl' n]|err] eqn:Hu; [|done].
  by apply (sqlite_update_keeps_required _ _ _ _ Hreq Hu).
Qed.

Lemma create_keeps_required (e : env) (tbl : table) (bike : jsval) :
  Forall required_columns tbl → Forall required_columns (post_motorcycles e tbl bike).2.
Proof.
  intros Hreq. unfold post_motorcycles.
  destruct (create e bike tbl) as [tbl'|err] eqn:Hc; [|done].
  unfold create in Hc.
  destruct (insert_params bike) as [params|]; [|done]. simpl in Hc.
  apply insert_appends in Hc as (r & -> & _ & Hnn & _).
  apply not_null_violation_none in Hnn.
  apply Forall_app. split; [done|]. by apply Forall_singleton.
Qed.

Lemma filter_keeps_required (P : Bike.t → Prop) `{∀ r, Decision (P r)} (tbl : table) :
  Forall required_columns tbl → Forall required_columns (filter P tbl).
Proof.
  rewrite !Forall_forall. intros Hreq r Hr.
  apply list_elem_of_filter in Hr as [_ Hr]. by apply Hreq.
Qed.

Lemma serve_keeps_required (e : env) (st : state) (req : request) :
  Forall required_columns (motorcycles st) →
  Forall required_columns (motorcycles (serve e st req).2).
Proof.
  intros Hreq. unfold serve.
  destruct (express_json req) as [parsed|err]; [|done].
  destruct (target req) as [| |x|x|x|]; try done.
  - pose proof (create_keeps_required e _ parsed Hreq).
    by destruct (post_motorcycles e (motorcycles st) parsed).
  - pose proof (put_keeps_required _ x parsed Hreq).
    by destruct (put_motorcycle (motorcycles st) x parsed).
  - unfold post_motorcycle_delete. rewrite delete_runs.
    destruct (0 <? _); simpl; by apply filter_keeps_required.
  - unfold delete_motorcycle. rewrite delete_runs.
    destruct (0 <? _); simpl; by apply filter_keeps_required.
  - by destruct (post_upload e (uploads st) parsed).
Qed.

(** [X19] Whatever requests the server has answered since it started on an empty
    table, no two stored records share an identifier, and every stored
    record has a [name], a [category] and a [year]. *)
Theorem table_constraints_hold_after_any_requests (reqs : list (env * request)) :
  let tbl := motorcycles (run empty_state reqs) in
  primary_key tbl ∧ Forall required_columns tbl.
Proof.
  cbv zeta.
  assert (∀ st, primary_key (motorcycles st) ∧ Forall required_columns (motorcycles st) →
                primary_key (motorcycles (run st reqs))
                ∧ Forall required_columns (motorcycles (run st reqs))) as Hrun.
  { induction reqs as [|[e req] reqs IH]; intros st [Hpk Hreq]; [done|].
    cbn [run]. apply IH. split.
    - by apply serve_keeps_primary_key.
    - by apply serve_keeps_required. }
  apply Hrun. split; [apply NoDup_nil_2|apply Forall_nil_2].
Qed.

(** *** The status codes of the routes *)


(** *** A record without an identifier *)

Lemma bind_value_nullish_ok (v : jsval) :
  nullish v = true → Sqlite.bind_value v = Ok SqlNull.
Proof. by destruct v. Qed.

Lemma has_id_null (x : string) (r : Bike.t) : Bike.id r = SqlNull → ¬ has_id x r.
Proof. unfold has_id. congruence. Qed.

Lemma put_keeps_other_rows (tbl : table) (x : string) (bike : jsval) (r : Bike.t) :
  r ∈ tbl → ¬ has_id x r → r ∈ (put_motorcycle tbl x bike).2.
Proof.
  intros Hr Hid.
  destruct (put_motorcycle_rewrites tbl x bike) as (f & -> & Hf).
  apply list_elem_of_fmap. exists r. split; [|done].
  symmetry. by apply Hf.
Qed.

Lemma delete_keeps_other_rows (tbl : table) (x : string) (r : Bike.t) :
  r ∈ tbl → ¬ has_id x r → r ∈ (delete_motorcycle tbl x).2.
Proof.
  intros Hr Hid. rewrite delete_motorcycle_table.
  apply list_elem_of_filter. split; [|done]. by apply where_id_false.
Qed.

(** [X21] A create whose body has no [id] is accepted, however many such records
    are stored already: the row is stored with a NULL key, the list call
    shows it with [id: null], and no update and no delete reaches it. *)
Theorem record_without_id_is_stored_and_unreachable
    (e : env) (tbl : table) (bike specs : list (string * jsval)) (n c : string) (y : Z) :
  nullish (lookup_prop "id" bike) = true →
  record_body bike specs n c y →
  ∃ r, post_motorcycles e tbl (JObj bike)
       = ({| status := 201; payload := Json (JObj bike) |}, tbl ++ [r])
       ∧ Bike.id r = SqlNull
       ∧ get_prop (format_bike r) "id" = Ok JNull
       ∧ (∀ tbl' x body, r ∈ tbl' → r ∈ (put_motorcycle tbl' x body).2)
       ∧ (∀ tbl' x, r ∈ tbl' → r ∈ (delete_motorcycle tbl' x).2).
Proof.
  intros Hx Hbody.
  exists {| Bike.id := SqlNull;
            Bike.name := SqlText n;
            Bike.category := SqlText c;
            Bike.year := Sqlite.integer_affinity (SqlReal y);
            Bike.description := stored (lookup_prop "description" bike);
            Bike.modifications := stored (lookup_prop "modifications" bike);
            Bike.image := stored (lookup_prop "image" bike);
            Bike.engine := stored (lookup_prop "engine" specs);
            Bike.power := stored (lookup_prop "power" specs);
            Bike.torque := stored (lookup_prop "torque" specs);
            Bike.weight := stored (lookup_prop "weight" specs);
            Bike.topSpeed := stored (lookup_prop "topSpeed" specs);
            Bike.created_at := SqlText (CURRENT_TIMESTAMP e) |}.
  split; [|split; [done|split; [done|split]]].
  - unfold post_motorcycles, create, insert_params.
    rewrite (mutable_args_object _ _ (record_body_specs _ _ _ _ _ Hbody)).
    unfold get_prop. cbn [mbind result_bind]. unfold Sqlite.bind_parameters.
    erewrite bind_args_values;
      [|constructor; [by apply bind_value_nullish_ok
                     |by apply (bind_typed_body bike specs n c y)]].
    cbn. rewrite !text_affinity_stored.
    assert (Sqlite.key_taken SqlNull tbl = false) as ->.
    { unfold Sqlite.key_taken. induction tbl as [|r tbl IH]; [done|].
      simpl. rewrite IH. by destruct (Bike.id r). }
    by destruct (Sqlite.real_fits_int64 y).
  - intros tbl' x body Hr. by apply put_keeps_other_rows.
  - intros tbl' x Hr. by apply delete_keeps_other_rows.
Qed.

Lemma record_without_id_is_stored_and_unreachable_witness :
  ∃ r, post_motorcycles sample_env sample_table (JObj body_without_id)
       = ({| status := 201; payload := Json (JObj body_without_id) |}, sample_table ++ [r])
       ∧ Bike.id r = SqlNull
       ∧ get_prop (format_bike r) "id" = Ok JNull
       ∧ (∀ tbl' x body, r ∈ tbl' → r ∈ (put_motorcycle tbl' x body).2)
       ∧ (∀ tbl' x, r ∈ tbl' → r ∈ (delete_motorcycle tbl' x).2).
Proof.
  apply (record_without_id_is_stored_and_unreachable sample_env sample_table
           body_without_id [] "Vespa Sprint" "Piaggio" 1974);
    [reflexivity|].
  repeat (split; [reflexivity|]). intros k _. reflexivity.
Defined.

(** *** An invariant of the uploads directory *)

Lemma serve_keeps_flat_byte_files (e : env) (st : state) (req : request) :
  map_Forall flat_byte_file (uploads st) →
  map_Forall flat_byte_file (uploads (serve e st req).2).
Proof.
  intros Hdir.
  unfold serve. destruct (express_json req) as [parsed|err]; [|done].
  destruct (target req) as [| |x|x|x|]; try done;
    try (by repeat match goal with
                   | |- context [let '(_, _) := ?p in _] => destruct p
                   end).
  destruct (post_upload_cases e (uploads st) parsed)
    as [[H _]|[(i & f & _ & _ & _ & H)|(i & f & _ & _ & _ & _ & _ & H)]].
  - destruct (post_upload e (uploads st) parsed) as [res dir]. cbn in *. by subst.
  - by rewrite H.
  - rewrite H. cbn. apply map_Forall_insert_2; [|done]. split.
    + apply newFileName_no_slash.
    + apply buffer_from_base64_bytes.
Qed.

(** [X22] Whatever requests the server has answered since it started on an empty
    directory, every stored file sits in the directory itself (no name holds
    a path separator) and is a sequence of bytes. *)
Theorem uploads_stay_flat_byte_files (reqs : list (env * request)) :
  map_Forall flat_byte_file (uploads (run empty_state reqs)).
Proof.
  assert (∀ st, map_Forall flat_byte_file (uploads st) →
                map_Forall flat_byte_file (uploads (run st reqs))) as Hrun.
  { induction reqs as [|[e req] reqs IH]; intros st Hdir; [done|].
    cbn [run]. by apply IH, serve_keeps_flat_byte_files. }
  apply Hrun. apply map_Forall_empty.
Qed.

(** *** The client: [handleDelete] and [handleAddOrEdit] *)








